(** * Prediction engine of the football analyzer backend (src/index.js)

    A shallow embedding of the statistical core of [src/index.js]: the
    truncated Poisson scoreline model ([factorial], [poissonPMF],
    [buildPrediction]), the form factors ([computeFormFactor]), the
    confidence heuristic ([computeDistributionClarity],
    [buildRealConfidence]), the classifiers ([getMatchProfile],
    [getDataFlag]) and the orchestration ([buildPredictionForFixture]).

    Numbers.  A JavaScript number that is known to be finite is a real
    [R]; rounding of IEEE doubles is not modelled, so every equation below
    is an equation of exact real arithmetic.  Where the code can produce
    the value NaN the type [JS.number] is used, which adds NaN to the
    reals with the propagation rules of ECMAScript.  Properties that
    compare two computed percentages (how they move with a rate, which
    side is the favourite, the mirrored forecast) are stated on the
    clamped range of rates and with explicit margins, far above what the
    rounding of doubles can change, rather than as strict inequalities or
    equalities between numbers that are arbitrarily close.

    Effects.  The memo table of [factorial] is explicit state in
    [factorial_cached]; the asynchronous lookups of the orchestrator are an
    interface ([StatsLookup]) whose answers are settled promises
    ([JS.outcome]), so that the [try]/[catch] around them is part of the
    model.  The cached lookups themselves are state transformers over the
    two caches, with the cache writes of overlapping lookups as explicit
    completions. *)

From Stdlib Require Import Reals Lra Lia List String Bool Arith ZArith.
From Stdlib Require Import Ascii Decimal DecimalString DecimalNat DecimalFacts.
Import ListNotations.

Open Scope R_scope.

(** ** JavaScript values used by the engine *)

Module JS.

(** A number: a finite real or NaN. *)
Inductive number : Type :=
| Num (r : R)
| NaN.

(** Binary arithmetic: NaN is absorbing. *)
Definition lift2 (f : R -> R -> R) (x y : number) : number :=
  match x, y with
  | Num a, Num b => Num (f a b)
  | _, _ => NaN
  end.

Definition add : number -> number -> number := lift2 Rplus.
Definition sub : number -> number -> number := lift2 Rminus.
Definition mul : number -> number -> number := lift2 Rmult.
(** Division is only ever applied to the non-zero literals 100 and 0.4. *)
Definition div : number -> number -> number := lift2 Rdiv.

(** [Math.min] and [Math.max] return NaN as soon as one argument is NaN. *)
Definition Math_min : number -> number -> number := lift2 Rmin.
Definition Math_max : number -> number -> number := lift2 Rmax.

(** [Math.round]: nearest integer, halves towards plus infinity. *)
Definition round (r : R) : R := IZR (Int_part (r + / 2)).

Definition Math_round (x : number) : number :=
  match x with
  | Num r => Num (round r)
  | NaN => NaN
  end.

(** [Number(x.toFixed(2))]: two decimals, halves away from zero;
    [NaN.toFixed(2)] is the string "NaN", which reads back as NaN. *)
Definition toFixed2 (r : R) : R :=
  if Rlt_dec r 0 then - (round (- r * 100) / 100) else round (r * 100) / 100.

Definition Number_toFixed2 (x : number) : number :=
  match x with
  | Num r => Num (toFixed2 r)
  | NaN => NaN
  end.

(** The comparisons [>=], [>], [<=] and [<] of finite numbers. *)
Definition Rgeb (x y : R) : bool := if Rge_dec x y then true else false.
Definition Rgtb (x y : R) : bool := if Rgt_dec x y then true else false.
Definition Rleb (x y : R) : bool := if Rle_dec x y then true else false.
Definition Rltb (x y : R) : bool := if Rlt_dec x y then true else false.

(** [x >= y] when [x] may be NaN: every comparison with NaN is false. *)
Definition geb (x : number) (y : R) : bool :=
  match x with
  | Num r => if Rge_dec r y then true else false
  | NaN => false
  end.

(** Truthiness of a finite number, and the idiom [x || 0]. *)
Definition truthy (x : R) : bool := if Req_dec_T x 0 then false else true.
Definition or0 (x : R) : R := if truthy x then x else 0.

(** A field of a parsed JSON document reached through optional chaining
    ([a?.b?.c]): absent ([None]) or a finite number.  [x || 0] on it. *)
Definition opt_or0 (x : option R) : R :=
  match x with
  | Some r => or0 r
  | None => 0
  end.

(** ToNumber of an array of numbers.  The array is first turned into the
    string of its elements joined by commas: the empty string reads as 0,
    a single element reads back as itself, and a string containing a
    comma is no numeric literal, hence NaN. *)
Definition array_to_number (s : list R) : number :=
  match s with
  | [] => Num 0
  | [x] => Num x
  | _ :: _ :: _ => NaN
  end.

(** The result of reading a property. *)
Inductive value : Type :=
| Undefined
| Str (s : string)
| Number (x : number).

(** Reading a named data property of an array.  An array owns its indices
    and [length]; [key] is none of them, nor a member of the prototype, so
    reading it gives [undefined].  (The methods of the prototype are not
    data and are not modelled.) *)
Definition array_get {A : Type} (arr : list A) (prop : string) : value :=
  if String.eqb prop "length" then Number (Num (INR (List.length arr)))
  else Undefined.

(** [Array.prototype.sort] with a comparator: a stable sort, an element
    [x] moving behind [y] exactly when [cmp x y > 0]. *)
Fixpoint insert {A : Type} (cmp : A -> A -> R) (x : A) (l : list A) : list A :=
  match l with
  | [] => [x]
  | y :: t => if Rgt_dec (cmp x y) 0 then y :: insert cmp x t else x :: y :: t
  end.

Definition sort {A : Type} (cmp : A -> A -> R) (l : list A) : list A :=
  fold_right (insert cmp) [] l.

(** The settlement of an awaited promise: a value, or a rejection that
    [await] turns into a thrown error. *)
Inductive outcome (A : Type) : Type :=
| Resolved (a : A)
| Rejected (message : string).

Arguments Resolved {A} a.
Arguments Rejected {A} message.

(** [await Promise.all([a, b, c, d])]: the four values, or the rejection of
    the first promise that is rejected. *)
Definition promise_all4 {A B C D : Type} (a : outcome A) (b : outcome B)
    (c : outcome C) (d : outcome D) : outcome (A * B * C * D) :=
  match a, b, c, d with
  | Resolved x, Resolved y, Resolved z, Resolved w => Resolved (x, y, z, w)
  | Rejected m, _, _, _ => Rejected m
  | _, Rejected m, _, _ => Rejected m
  | _, _, Rejected m, _ => Rejected m
  | _, _, _, Rejected m => Rejected m
  end.

End JS.

Import JS.

(** ** Numeric helpers (lines 48-65) *)

(** [factorial] without its memo table: the value the loop computes. *)
Definition factorial (n : nat) : R :=
  if (n <=? 1)%nat then 1
  else fold_left (fun r i => r * INR i) (seq 2 (n - 1)) 1.

(** [factorial] with the memo table [factCache] as explicit state: a hit is
    a stored value that is truthy, a miss runs the loop and stores its
    result.  [factorial_cached_value] below shows that the table never
    changes the value, which is why the rest of the model uses
    [factorial]. *)
Definition FactCache : Type := nat -> option R.

Definition factorial_cached (factCache : FactCache) (n : nat)
    : R * FactCache :=
  if (n <=? 1)%nat then (1, factCache)
  else
    match factCache n with
    | Some r =>
        if truthy r then (r, factCache)
        else
          let r := fold_left (fun r i => r * INR i) (seq 2 (n - 1)) 1 in
          (r, fun k => if (k =? n)%nat then Some r else factCache k)
    | None =>
        let r := fold_left (fun r i => r * INR i) (seq 2 (n - 1)) 1 in
        (r, fun k => if (k =? n)%nat then Some r else factCache k)
    end.

Definition poissonPMF (lambda : R) (k : nat) : R :=
  if Rle_dec lambda 0 then (if (k =? 0)%nat then 1 else 0)
  else exp (- lambda) * lambda ^ k / factorial k.

(** [clamp] on finite numbers, and the same body on numbers that may be NaN
    (the call [clamp(real.percent, 25, 75)]). *)
Definition clamp (v min max : R) : R := Rmax min (Rmin max v).

Definition clamp_number (v : number) (min max : R) : number :=
  Math_max (Num min) (Math_min (Num max) v).

(** ** Form factors (lines 173-187) *)

Record FormSample : Type := mkSample {
  home : bool;
  goalsFor : R;
  goalsAgainst : R
}.

Record FormFactor : Type := mkFormFactor {
  attack : R;
  defense : R;
  matches : nat
}.

(** The argument is [null] ([None]) or an array. *)
Definition computeFormFactor (lst : option (list FormSample)) : FormFactor :=
  match lst with
  | None => mkFormFactor 1 1 0
  | Some [] => mkFormFactor 1 1 0
  | Some l =>
      let '(gf, ga) :=
        fold_left (fun '(gf, ga) m => (gf + goalsFor m, ga + goalsAgainst m))
                  l (0, 0) in
      let n := List.length l in
      let avgGF := gf / INR n in
      let avgGA := ga / INR n in
      let base := 1.3 in
      let atk := 0.7 + 0.3 * (avgGF / base) in
      let def := 0.7 + 0.3 * (base / Rmax avgGA 0.3) in
      mkFormFactor (clamp atk 0.6 1.4) (clamp def 0.6 1.4) n
  end.

(** ** Confidence (lines 189-223) *)

Definition computeDistributionClarity (h d a : R) : number :=
  let s := sort (fun x y => y - x) [h; d; a] in
  let diff := div (sub (array_to_number s) (array_to_number s)) (Num 100) in
  Number_toFixed2 (Math_min (Num 1) (div diff (Num 0.4))).

Record MatchContext : Type := mkContext {
  homeMatchesTotal : R;
  awayMatchesTotal : R;
  homeRecentMatches : R;
  awayRecentMatches : R;
  dataQuality : R;
  sampleSize : R;
  recentFactor : R
}.

Record Components : Type := mkComponents {
  dataQ : R;
  sample : R;
  clarity : number;
  recent : R
}.

Record Confidence : Type := mkConfidence {
  percent : number;
  components : Components;
  label : string
}.

Definition buildRealConfidence (probHome probDraw probAway : R)
    (context : option MatchContext) : Confidence :=
  let '(dataQ, sample) :=
    match context with
    | Some c =>
        let h := or0 (homeMatchesTotal c) in
        let a := or0 (awayMatchesTotal c) in
        (if Rgeb h 5 && Rgeb a 5 then 1
         else if Rgeb h 3 && Rgeb a 3 then 0.7
         else 0.4,
         Rmin 1 ((h + a) / 40))
    | None => (0.3, 0.3)
    end in
  let recent :=
    match context with
    | Some c =>
        let m := Rmin (or0 (homeRecentMatches c)) (or0 (awayRecentMatches c)) in
        if Rgeb m 5 then 1
        else if Rgeb m 3 then 0.7
        else if Rgeb m 1 then 0.5
        else 0.3
    | None => 0.3
    end in
  let clarity := computeDistributionClarity probHome probDraw probAway in
  let score :=
    add (add (add (Num (dataQ * 0.35)) (Num (sample * 0.25)))
             (mul clarity (Num 0.25)))
        (Num (recent * 0.15)) in
  let pct := Math_round (mul (Math_max (Num 0) (Math_min (Num 1) score)) (Num 100)) in
  let label :=
    if geb pct 60 then "ridicată"%string
    else if geb pct 40 then "medie"%string
    else "scăzută"%string in
  mkConfidence pct (mkComponents dataQ sample clarity recent) label.

(** ** The prediction object and the classifiers (lines 225-247) *)

Record Goals : Type := mkGoals { over25 : R; under25 : R }.
Record Btts : Type := mkBtts { yes : R; no : R }.
Record Lambdas : Type := mkLambdas { lambda_home : R; lambda_away : R }.

(** [confidenceDetails]: the spread of [real] followed by the three
    context signals. *)
Record ConfidenceDetails : Type := mkDetails {
  real : Confidence;
  details_dataQuality : R;
  details_sampleSize : R;
  details_recentFactor : R
}.

(** The object [out].  [matchProfile] and [dataFlag] are assigned after the
    literal is built; until then they are absent ([None]). *)
Record Prediction : Type := mkPrediction {
  probHome : R;
  probDraw : R;
  probAway : R;
  mainPick : value;
  confidence : number;
  confidenceDetails : ConfidenceDetails;
  goals : Goals;
  btts : Btts;
  lambdas : Lambdas;
  matchProfile : option string;
  dataFlag : option string
}.

Definition getMatchProfile (p : Prediction) : string :=
  let over25 := over25 (goals p) in
  let under25 := under25 (goals p) in
  let h := probHome p in
  let d := probDraw p in
  let a := probAway p in
  let b := yes (btts p) in
  if Rgeb over25 60 && Rgeb b 55 then "GOALS_GAME"
  else if Rgeb h 50 && Rgeb under25 55 then "HOME_AND_UNDER"
  else if Rleb (Rabs (h - a)) 10 && Rgeb b 60 then "BALANCED_BTTS"
  else if Rltb h 40 && Rltb a 40 && Rgtb d 25 then "HIGH_VARIANCE"
  else if Rgeb h 55 then "STRONG_HOME"
  else if Rgeb a 55 then "STRONG_AWAY"
  else "NEUTRAL".

(** The argument of [getDataFlag]: an object with the three signals. *)
Record DataSignals : Type := mkSignals {
  sig_dataQuality : R;
  sig_sampleSize : R;
  sig_recentFactor : R
}.

Definition getDataFlag (ctx : DataSignals) : string :=
  let dq := sig_dataQuality ctx in
  let sm := sig_sampleSize ctx in
  let rc := sig_recentFactor ctx in
  if Rgeb dq 0.8 && Rgeb sm 0.6 && Rgeb rc 0.7 then "GOOD_DATA"
  else if Rgeb dq 0.5 && Rgeb sm 0.4 then "OK_DATA"
  else "LOW_DATA".

(** ** The scoreline model (lines 249-313) *)

(** The five accumulators of the double loop. *)
Record Acc : Type := mkAcc { wH : R; wD : R; wA : R; ov : R; b : R }.

(** One iteration of the inner loop body, for the score [h]-[a]. *)
Definition cell (pH pA : list R) (h a : nat) (s : Acc) : Acc :=
  let p := nth h pH 0 * nth a pA 0 in
  let s :=
    if (a <? h)%nat then mkAcc (wH s + p) (wD s) (wA s) (ov s) (b s)
    else if (h =? a)%nat then mkAcc (wH s) (wD s + p) (wA s) (ov s) (b s)
    else mkAcc (wH s) (wD s) (wA s + p) (ov s) (b s) in
  let s :=
    if (3 <=? h + a)%nat then mkAcc (wH s) (wD s) (wA s) (ov s + p) (b s)
    else s in
  if (0 <? h)%nat && (0 <? a)%nat
  then mkAcc (wH s) (wD s) (wA s) (ov s) (b s + p)
  else s.

(** [for (h = 0; h <= max; h++) for (a = 0; a <= max; a++) ...] *)
Definition grid (max : nat) (pH pA : list R) : Acc :=
  fold_left
    (fun s h => fold_left (fun s a => cell pH pA h a s) (seq 0 (S max)) s)
    (seq 0 (S max)) (mkAcc 0 0 0 0 0).

Record Pick : Type := mkPick { key : string; val : R }.

(** [out.matchProfile = ...; out.dataFlag = ...] *)
Definition assign_tags (out : Prediction) (profile flag : string) : Prediction :=
  mkPrediction (probHome out) (probDraw out) (probAway out) (mainPick out)
    (confidence out) (confidenceDetails out) (goals out) (btts out)
    (lambdas out) (Some profile) (Some flag).

Definition buildPrediction (lambdaHome lambdaAway : R) (ctx : MatchContext)
    : Prediction :=
  let max := 7%nat in
  let pH := map (poissonPMF lambdaHome) (seq 0 (S max)) in
  let pA := map (poissonPMF lambdaAway) (seq 0 (S max)) in
  let w := grid max pH pA in
  let probHome := wH w * 100 in
  let probDraw := wD w * 100 in
  let probAway := wA w * 100 in
  let over25 := ov w * 100 in
  let bttsYes := b w * 100 in
  let real := buildRealConfidence probHome probDraw probAway (Some ctx) in
  let confidence := clamp_number (percent real) 25 75 in
  let out :=
    mkPrediction probHome probDraw probAway
      (array_get
         (sort (fun a b2 => val b2 - val a)
               [mkPick "HOME" probHome; mkPick "DRAW" probDraw;
                mkPick "AWAY" probAway])
         "key")
      confidence
      (mkDetails real (dataQuality ctx) (sampleSize ctx) (recentFactor ctx))
      (mkGoals over25 (100 - over25))
      (mkBtts bttsYes (100 - bttsYes))
      (mkLambdas (toFixed2 lambdaHome) (toFixed2 lambdaAway))
      None None in
  assign_tags out
    (getMatchProfile out)
    (getDataFlag
       (mkSignals (dataQuality ctx) (sampleSize ctx) (recentFactor ctx))).

(** ** Orchestration (lines 315-388) *)

(** The fields of the provider's statistics document that the engine reads,
    each reached through optional chaining and therefore possibly absent. *)
Record TeamStats : Type := mkStats {
  played_home : option R;          (* fixtures?.played?.home *)
  played_away : option R;          (* fixtures?.played?.away *)
  played_total : option R;         (* fixtures?.played?.total *)
  goals_for_home : option R;       (* goals?.for?.total?.home *)
  goals_for_away : option R;       (* goals?.for?.total?.away *)
  goals_against_home : option R;   (* goals?.against?.total?.home *)
  goals_against_away : option R    (* goals?.against?.total?.away *)
}.

Record Competition : Type := mkCompetition { apiLeagueId : nat; season : nat }.

(** [f.teams?.home?.id] and [f.teams?.away?.id]. *)
Record Fixture : Type := mkFixture {
  home_id : option nat;
  away_id : option nat
}.

(** Truthiness of a team identifier: present and not 0. *)
Definition id_truthy (i : option nat) : option nat :=
  match i with
  | Some O => None
  | Some n => Some n
  | None => None
  end.

(** The two asynchronous lookups, by league, season and team.  A lookup
    answers the data or [null]; [getTeamStats] and [getTeamRecentForm] of
    the source catch the failures of the provider themselves, but the
    orchestrator does not rely on it, so a lookup may also be rejected. *)
Class StatsLookup : Type := {
  getTeamStats : nat -> nat -> nat -> outcome (option TeamStats);
  getTeamRecentForm : nat -> nat -> nat -> outcome (option (list FormSample))
}.

(** The context every prediction starts from (lines 322-330). *)
Definition initial_context : MatchContext := mkContext 0 0 0 0 0.3 0.3 0.3.

Section Orchestrator.

Context {lookup : StatsLookup}.

(** The rates and the context handed to [buildPrediction]: the body of
    [buildPredictionForFixture] up to its last line.  The [catch] block
    only logs, so a rejected lookup leaves the initial values in place. *)
Definition fixtureRates (comp : Competition) (f : Fixture)
    : R * R * MatchContext :=
  let lH := 1.35 in
  let lA := 1.25 in
  let ctx := initial_context in
  match id_truthy (home_id f), id_truthy (away_id f) with
  | Some home, Some away =>
      match promise_all4
              (getTeamStats (apiLeagueId comp) (season comp) home)
              (getTeamStats (apiLeagueId comp) (season comp) away)
              (getTeamRecentForm (apiLeagueId comp) (season comp) home)
              (getTeamRecentForm (apiLeagueId comp) (season comp) away) with
      | Rejected _ => (lH, lA, ctx)
      | Resolved (stH, stA, rH, rA) =>
      match stH, stA with
      | Some stH, Some stA =>
          let hP := opt_or0 (played_home stH) in
          let hGF := opt_or0 (goals_for_home stH) in
          let hGA := opt_or0 (goals_against_home stH) in
          let aP := opt_or0 (played_away stA) in
          let aGF := opt_or0 (goals_for_away stA) in
          let aGA := opt_or0 (goals_against_away stA) in
          let hAvgF := if truthy hP then hGF / hP else 1.4 in
          let hAvgA := if truthy hP then hGA / hP else 1.2 in
          let aAvgF := if truthy aP then aGF / aP else 1.3 in
          let aAvgA := if truthy aP then aGA / aP else 1.2 in
          let lH := (hAvgF + aAvgA) / 2 in
          let lA := (aAvgF + hAvgA) / 2 in
          let lH := lH * 1.1 in
          let lA := lA * 0.95 in
          let lH := clamp lH 0.4 3.2 in
          let lA := clamp lA 0.4 3.2 in
          let fH := computeFormFactor rH in
          let fA := computeFormFactor rA in
          let lH := lH * (attack fH * defense fA) in
          let lA := lA * (attack fA * defense fH) in
          let lH := clamp lH 0.4 3.2 in
          let lA := clamp lA 0.4 3.2 in
          let hT := opt_or0 (played_total stH) in
          let aT := opt_or0 (played_total stA) in
          let mH := matches fH in
          let mA := matches fA in
          (lH, lA,
           mkContext hT aT (INR mH) (INR mA)
             (if Rgeb hT 5 && Rgeb aT 5 then 1
              else if Rgeb hT 3 && Rgeb aT 3 then 0.7
              else 0.4)
             (Rmin 1 ((hT + aT) / 40))
             (if (5 <=? mH)%nat && (5 <=? mA)%nat then 1
              else if (3 <=? mH)%nat && (3 <=? mA)%nat then 0.7
              else if (1 <=? mH)%nat && (1 <=? mA)%nat then 0.5
              else 0.3))
      | _, _ => (lH, lA, ctx)
      end
      end
  | _, _ => (lH, lA, ctx)
  end.

Definition buildPredictionForFixture (comp : Competition) (f : Fixture)
    : Prediction :=
  let '(lH, lA, ctx) := fixtureRates comp f in
  buildPrediction lH lA ctx.

End Orchestrator.

(** ** Provider access (lines 67-152)

    [apiFetch] is the boundary of the model: one call answers, or fails,
    and moves the world on.  The retry loop and the two memoised lookups
    are embedded over it with the two caches and the world as explicit
    state.  [getTeamStats] and [getTeamRecentForm] are a lookup that runs
    from its cache test to its cache write without another lookup in
    between.  The source awaits the provider between the two, so lookups
    can overlap: what an overlapping lookup does to the caches is the
    write it ends with, a [Completion], and properties that have to hold
    whatever overlaps are stated over arbitrary lists of completions.
    The lookups live in the module [Remote], the names [getTeamStats] and
    [getTeamRecentForm] being those of the interface the orchestrator is
    stated over. *)

Module Remote.

(** The error [apiFetch] throws: it carries the HTTP status when the
    provider answered with a failure, and none when the request itself
    failed. *)
Record FetchError : Type := mkFetchError {
  status : option nat;
  message : string
}.

(** An entry of the provider's list of fixtures, as far as it is read. *)
Record RawFixture : Type := mkRawFixture {
  fixture_home_id : option nat;    (* teams?.home?.id *)
  goals_home : option R;           (* goals?.home *)
  goals_away : option R            (* goals?.away *)
}.

(** The field [response] of a parsed answer ([d?.response]): absent or
    falsy, an object read as team statistics, or an array of fixtures. *)
Inductive Response : Type :=
| NoResponse
| StatsResponse (stats : TeamStats)
| FixturesResponse (fixtures : list RawFixture).

Inductive fetched : Type :=
| Fetched (response : Response)
| Failed (e : FetchError).

(** The endpoint and the parameters of a request, each parameter with the
    string [apiFetch] writes into the URL. *)
Record Request : Type := mkRequest {
  endpoint : string;
  params : list (string * string)
}.

Class Provider (World : Type) : Type := {
  apiFetch : Request -> World -> fetched * World
}.

(** [e.status && e.status < 500] *)
Definition client_error (e : FetchError) : bool :=
  match status e with
  | Some s => negb (s =? 0)%nat && (s <? 500)%nat
  | None => false
  end.

(** What [apiFetchWithRetry] ends with: the answer it returns or the value
    of [last] it throws. *)
Inductive settled : Type :=
| Returned (response : Response)
| Threw (last : option FetchError).

(** A [Map] with string keys: [has]/[get] by application, [set] below. *)
Definition Cache (V : Type) : Type := string -> option V.

Definition cache_set {V : Type} (c : Cache V) (key : string) (v : V) : Cache V :=
  fun k => if String.eqb k key then Some v else c k.

(** The two caches and the world. *)
Record Store (World : Type) : Type := mkStore {
  teamStatsCache : Cache (option TeamStats);
  teamFormCache : Cache (option (list FormSample));
  world : World
}.

Arguments mkStore {World} _ _ _.
Arguments teamStatsCache {World} _.
Arguments teamFormCache {World} _.
Arguments world {World} _.

(** [String(n)] for a natural number, and the two key templates. *)
Definition number_string (n : nat) : string :=
  NilEmpty.string_of_uint (Nat.to_uint n).

(** The requests of the two lookups and of the fixture list. *)
Definition stats_request (league season team : nat) : Request :=
  mkRequest "/teams/statistics"
    [("league", number_string league); ("season", number_string season);
     ("team", number_string team)]%string.

Definition form_request (league season team : nat) : Request :=
  mkRequest "/fixtures"
    [("league", number_string league); ("season", number_string season);
     ("team", number_string team); ("last", "5")]%string.

Definition next_request (league season : nat) : Request :=
  mkRequest "/fixtures"
    [("league", number_string league); ("season", number_string season);
     ("next", "30")]%string.

Definition range_request (league season : nat) (from to : string) : Request :=
  mkRequest "/fixtures"
    [("league", number_string league); ("season", number_string season);
     ("from", from); ("to", to)]%string.

(** A [Date] as far as it is read: [getFullYear()], [getMonth()] (0 for
    January) and [getDate()]. *)
Record Date : Type := mkDate {
  fullYear : nat;
  month : nat;
  date : nat
}.

(** [s.padStart(2, "0")] *)
Definition padStart2 (s : string) : string :=
  match String.length s with
  | O => "00"
  | S O => String "0" s
  | _ => s
  end.

(** [formatDate] (lines 44-46) *)
Definition formatDate (d : Date) : string :=
  (number_string (fullYear d) ++ "-"
   ++ padStart2 (number_string (month d + 1)) ++ "-"
   ++ padStart2 (number_string (date d)))%string.

(** The clock: [new Date()] reads it, and [setDate(getDate() + n)] moves a
    date on by [n] days. *)
Class Clock (World : Type) : Type := {
  now : World -> Date;
  plus_days : Date -> nat -> Date
}.

Definition stats_key (league season team : nat) : string :=
  (number_string league ++ "-" ++ number_string season ++ "-"
   ++ number_string team)%string.

Definition form_key (league season team : nat) : string :=
  (number_string league ++ "-" ++ number_string season ++ "-"
   ++ number_string team ++ "-recent")%string.

(** The sample [resp.map] makes of one fixture (lines 138-143). *)
Definition toSample (team : nat) (f : RawFixture) : FormSample :=
  let isHome :=
    match fixture_home_id f with
    | Some i => (i =? team)%nat
    | None => false
    end in
  let gf := if isHome then goals_home f else goals_away f in
  let ga := if isHome then goals_away f else goals_home f in
  mkSample isHome (opt_or0 gf) (opt_or0 ga).

Section Lookups.

Context {World : Type} {provider : Provider World}.

(** The iterations [i, i+1, ..] of the loop that are still to run, [n] of
    them, with the current value of [last]. *)
Fixpoint retry_loop (req : Request) (n : nat) (last : option FetchError)
    (w : World) : settled * World :=
  match n with
  | O => (Threw last, w)
  | S n' =>
      match apiFetch req w with
      | (Fetched json, w') => (Returned json, w')
      | (Failed e, w') =>
          if client_error e then (Threw (Some e), w')
          else retry_loop req n' (Some e) w'
      end
  end.

(** [for (let i = 0; i <= retries; i++)]: [retries + 1] iterations. *)
Definition apiFetchWithRetry (req : Request) (retries : nat) (w : World)
    : settled * World :=
  retry_loop req (S retries) None w.

Definition getTeamStats (league season team : nat) (st : Store World)
    : option TeamStats * Store World :=
  let key := stats_key league season team in
  match teamStatsCache st key with
  | Some cached => (cached, st)
  | None =>
      match apiFetchWithRetry (stats_request league season team) 2
              (world st) with
      | (Returned d, w) =>
          let stats :=
            match d with
            | NoResponse => None
            | StatsResponse stats => Some stats
            | FixturesResponse _ =>
                Some (mkStats None None None None None None None)
            end in
          (stats,
           mkStore (cache_set (teamStatsCache st) key stats)
                   (teamFormCache st) w)
      | (Threw _, w) =>
          (None,
           mkStore (cache_set (teamStatsCache st) key None)
                   (teamFormCache st) w)
      end
  end.

Definition getTeamRecentForm (league season team : nat) (st : Store World)
    : option (list FormSample) * Store World :=
  let key := form_key league season team in
  match teamFormCache st key with
  | Some cached => (cached, st)
  | None =>
      match apiFetchWithRetry (form_request league season team) 2
              (world st) with
      | (Returned d, w) =>
          let resp :=
            match d with
            | FixturesResponse fixtures => fixtures
            | _ => []
            end in
          match resp with
          | [] =>
              (None,
               mkStore (teamStatsCache st)
                       (cache_set (teamFormCache st) key None) w)
          | _ :: _ =>
              let list := map (toSample team) resp in
              (Some list,
               mkStore (teamStatsCache st)
                       (cache_set (teamFormCache st) key (Some list)) w)
          end
      | (Threw _, w) =>
          (None,
           mkStore (teamStatsCache st)
                   (cache_set (teamFormCache st) key None) w)
      end
  end.

(** [getFixturesForCompetition] (lines 154-171): the next 30 fixtures, or
    else those of the 30 days from today; each [catch] is empty, so a
    request that fails counts like one without fixtures. *)
Definition getFixturesForCompetition {clock : Clock World} (comp : Competition)
    (w : World) : list RawFixture * World :=
  match apiFetchWithRetry
          (next_request (apiLeagueId comp) (season comp)) 2 w with
  | (Returned (FixturesResponse (x :: l)), w1) => (x :: l, w1)
  | (_, w1) =>
      let t := now w1 in
      let from := formatDate t in
      let to := formatDate (plus_days t 30) in
      match apiFetchWithRetry
              (range_request (apiLeagueId comp) (season comp) from to) 2 w1 with
      | (Returned (FixturesResponse (x :: l)), w2) => (x :: l, w2)
      | (_, w2) => ([], w2)
      end
  end.

End Lookups.

(** What a lookup that missed its cache stores and returns once its
    request has settled (lines 116-118, 120-122 and 135-150). *)
Definition stats_result (r : settled) : option TeamStats :=
  match r with
  | Returned NoResponse => None
  | Returned (StatsResponse stats) => Some stats
  | Returned (FixturesResponse _) =>
      Some (mkStats None None None None None None None)
  | Threw _ => None
  end.

Definition form_result (team : nat) (r : settled)
    : option (list FormSample) :=
  match r with
  | Returned (FixturesResponse (x :: l)) => Some (map (toSample team) (x :: l))
  | _ => None
  end.

(** The end of a lookup that missed: the request of the lookup for the
    triple has settled with [r], and the result is written to the cache. *)
Inductive Completion : Type :=
| StatsDone (league season team : nat) (r : settled)
| FormDone (league season team : nat) (r : settled).

Definition complete {World : Type} (c : Completion) (st : Store World)
    : Store World :=
  match c with
  | StatsDone league season team r =>
      mkStore (cache_set (teamStatsCache st) (stats_key league season team)
                 (stats_result r))
              (teamFormCache st) (world st)
  | FormDone league season team r =>
      mkStore (teamStatsCache st)
              (cache_set (teamFormCache st) (form_key league season team)
                 (form_result team r))
              (world st)
  end.

(** Lookups that overlap complete one after the other, in any order. *)
Definition complete_all {World : Type} (cs : list Completion)
    (st : Store World) : Store World :=
  fold_left (fun st c => complete c st) cs st.

(** A provider that answers from a script: the world is the number of
    calls made so far, and the answer to a call is the script's entry for
    the request at that number. *)
Definition scripted (script : Request -> nat -> fetched) : Provider nat :=
  {| apiFetch := fun req w => (script req w, S w) |}.

(** The store the program starts with: both caches empty. *)
Definition empty_store {World : Type} (w : World) : Store World :=
  mkStore (fun _ => None) (fun _ => None) w.

End Remote.

(** * Auxiliary definitions

    Specification-side functions, closed forms and proof tactics used by
    the properties below. *)

(** A memo table is sound when it stores nothing but factorials; the empty
    table, with which the program starts, is. *)
Definition cache_sound (factCache : FactCache) : Prop :=
  forall (n : nat) (r : R), factCache n = Some r -> r = factorial n.

(** A number is a confidence percentage of the reportable band when it is
    an integer between 25 and 75. *)
Definition in_band (x : number) : Prop :=
  exists n : Z, x = Num (IZR n) /\ (25 <= n <= 75)%Z.

(** Decides the real comparisons of a goal whose operands are literals. *)
Ltac decide_R :=
  repeat match goal with
  | |- context [Rgt_dec ?x ?y] => destruct (Rgt_dec x y); try lra
  | |- context [Rge_dec ?x ?y] => destruct (Rge_dec x y); try lra
  | |- context [Rlt_dec ?x ?y] => destruct (Rlt_dec x y); try lra
  | |- context [Rle_dec ?x ?y] => destruct (Rle_dec x y); try lra
  | |- context [Req_dec_T ?x ?y] => destruct (Req_dec_T x y); try lra
  end.

(** The clarity signal as the specification words it: sort descending, gap
    of the top two over 40 points, clamped to the unit interval. *)
Definition clarity_spec (h d a : R) : R :=
  match sort (fun x y => y - x) [h; d; a] with
  | top :: second :: _ => clamp ((top - second) / 40) 0 1
  | _ => 0
  end.

(** The pick as the specification words it: the greatest probability, ties
    going to HOME before DRAW before AWAY. *)
Definition mainPick_spec (pH pD pA : R) : string :=
  if Rgeb pH pD && Rgeb pH pA then "HOME"
  else if Rgeb pD pA then "DRAW"
  else "AWAY".

Definition picks (pH pD pA : R) : list Pick :=
  [mkPick "HOME" pH; mkPick "DRAW" pD; mkPick "AWAY" pA].

(** The three heuristic components computed by [buildRealConfidence]. *)
Definition heuristics (c : Confidence) : R * R * R :=
  (dataQ (components c), sample (components c), recent (components c)).

(** The fixed set of tags. *)
Definition match_tags : list string :=
  ["GOALS_GAME"; "HOME_AND_UNDER"; "BALANCED_BTTS"; "HIGH_VARIANCE";
   "STRONG_HOME"; "STRONG_AWAY"; "NEUTRAL"]%string.

(** The classifier as the specification words it: an ordered table of
    (condition, tag) rules, the first rule whose condition holds gives the
    tag, and NEUTRAL is the tag when none holds. *)
Definition classify_rules : list ((Prediction -> bool) * string) :=
  [ (fun p => Rgeb (over25 (goals p)) 60 && Rgeb (yes (btts p)) 55,
     "GOALS_GAME"%string);
    (fun p => Rgeb (probHome p) 50 && Rgeb (under25 (goals p)) 55,
     "HOME_AND_UNDER"%string);
    (fun p => Rleb (Rabs (probHome p - probAway p)) 10 && Rgeb (yes (btts p)) 60,
     "BALANCED_BTTS"%string);
    (fun p => Rltb (probHome p) 40 && Rltb (probAway p) 40 && Rgtb (probDraw p) 25,
     "HIGH_VARIANCE"%string);
    (fun p => Rgeb (probHome p) 55, "STRONG_HOME"%string);
    (fun p => Rgeb (probAway p) 55, "STRONG_AWAY"%string) ].

Definition classifyMatch_spec (p : Prediction) : string :=
  match find (fun rule => fst rule p) classify_rules with
  | Some rule => snd rule
  | None => "NEUTRAL"%string
  end.

(** A forecast that is both a goals game and a strong home win. *)
Definition goals_and_strong_home : Prediction :=
  mkPrediction 60 20 20 Undefined NaN
    (mkDetails
       (mkConfidence NaN (mkComponents 0.4 0 NaN 0.3) "scăzută"%string)
       0.3 0.3 0.3)
    (mkGoals 70 30) (mkBtts 60 40) (mkLambdas 2 1) None None.

(** A provider that knows the statistics of team 1 only. *)
Definition home_only_lookup : StatsLookup := {|
  getTeamStats := fun _ _ team =>
    if (team =? 1)%nat
    then Resolved
           (Some (mkStats (Some 5) None (Some 10) (Some 8) None (Some 4) None))
    else Resolved None;
  getTeamRecentForm := fun _ _ _ => Resolved None
|}.

(** Sum of [f 0 .. f (n-1)]. *)
Fixpoint sumf (f : nat -> R) (n : nat) : R :=
  match n with
  | O => 0
  | S k => sumf f k + f k
  end.

(** The Poisson term as a function of the rate, defined for every real. *)
Definition poisson (k : nat) (x : R) : R := exp (- x) * x ^ k / INR (fact k).

(** The probability mass the truncated support 0..7 keeps. *)
Definition truncated_mass (lambda : R) : R := sumf (poissonPMF lambda) 8.

Definition outcome_sum (p : Prediction) : R :=
  probHome p + probDraw p + probAway p.

(** Replaces the factorials of literals by their values. *)
Ltac fact_lit :=
  repeat match goal with
  | |- context [INR (fact ?k)] =>
      let z := eval vm_compute in (Z.of_nat (fact k)) in
      replace (INR (fact k)) with (IZR z)
        by (rewrite INR_IZR_INZ; reflexivity)
  end.

(** Derivative of the Poisson term with respect to the rate. *)
Definition poisson_slope (k : nat) (x : R) : R :=
  match k with
  | O => - poisson 0 x
  | S j => poisson j x - poisson (S j) x
  end.

(** A mixture of the first [n] Poisson terms with weights [c]. *)
Definition mixture (c : nat -> R) (n : nat) (x : R) : R :=
  sumf (fun k => c k * poisson k x) n.

Definition mixture_slope (c : nat -> R) (n : nat) (x : R) : R :=
  sumf (fun k => c k * poisson_slope k x) n.

(** Weight of the home win mass on the term for [h] home goals: the away
    side scores fewer. *)
Definition home_weight (q : nat -> R) (h : nat) : R := sumf q h.

(** Weight of the away win mass: the away side scores more, up to 7. *)
Definition away_weight (q : nat -> R) (h : nat) : R := sumf q 8 - sumf q (S h).

(** A provider with the same season for every team: 10 home and 10 away
    matches, 13 goals scored and 12 conceded at each venue, and no recent
    form. *)
Definition symmetric_lookup : StatsLookup := {|
  getTeamStats := fun _ _ _ =>
    Resolved (Some (mkStats (Some 10) (Some 10) (Some 20)
                            (Some 13) (Some 13) (Some 12) (Some 12)));
  getTeamRecentForm := fun _ _ _ => Resolved None
|}.

(** Evaluates minima and maxima of literals, innermost first. *)
Ltac eval_minmax :=
  repeat first
    [ rewrite Rmin_left by lra | rewrite Rmin_right by lra
    | rewrite Rmax_left by lra | rewrite Rmax_right by lra ].

(** Evaluates comparisons of literals. *)
Ltac eval_R :=
  unfold Rgeb, Rgtb, Rleb, Rltb, opt_or0, or0, truthy; decide_R.

(** A run of calls to [factorial] that share the memo table. *)
Fixpoint factorial_calls (factCache : FactCache) (ns : list nat)
    : list R * FactCache :=
  match ns with
  | [] => ([], factCache)
  | n :: rest =>
      let '(r, factCache) := factorial_cached factCache n in
      let '(rs, factCache) := factorial_calls factCache rest in
      (r :: rs, factCache)
  end.

(** Goals scored and conceded over a list of recent matches. *)
Definition total_goalsFor (l : list FormSample) : R :=
  fold_right (fun m acc => goalsFor m + acc) 0 l.

Definition total_goalsAgainst (l : list FormSample) : R :=
  fold_right (fun m acc => goalsAgainst m + acc) 0 l.

(** The three signals of the context as the orchestrator computes them
    from the season totals and the numbers of recent matches. *)
Definition quality_signal (hT aT : R) : R :=
  if Rgeb hT 5 && Rgeb aT 5 then 1
  else if Rgeb hT 3 && Rgeb aT 3 then 0.7
  else 0.4.

Definition sample_signal (hT aT : R) : R := Rmin 1 ((hT + aT) / 40).

Definition recent_signal (mH mA : nat) : R :=
  if (5 <=? mH)%nat && (5 <=? mA)%nat then 1
  else if (3 <=? mH)%nat && (3 <=? mA)%nat then 0.7
  else if (1 <=? mH)%nat && (1 <=? mA)%nat then 0.5
  else 0.3.

(** The recent-form component as a function of the two counts of recent
    matches: both at least 5, both at least 3, both at least 1, or
    neither. *)
Definition recent_by_counts (hR aR : R) : R :=
  if Rgeb hR 5 && Rgeb aR 5 then 1
  else if Rgeb hR 3 && Rgeb aR 3 then 0.7
  else if Rgeb hR 1 && Rgeb aR 1 then 0.5
  else 0.3.

(** The fixture names both teams and the four lookups answer, with the
    season statistics of both teams present. *)
Definition full_data {lookup : StatsLookup} (comp : Competition) (f : Fixture)
    (stH stA : TeamStats) (rH rA : option (list FormSample)) : Prop :=
  exists home away : nat,
    id_truthy (home_id f) = Some home /\
    id_truthy (away_id f) = Some away /\
    getTeamStats (apiLeagueId comp) (season comp) home = Resolved (Some stH) /\
    getTeamStats (apiLeagueId comp) (season comp) away = Resolved (Some stA) /\
    getTeamRecentForm (apiLeagueId comp) (season comp) home = Resolved rH /\
    getTeamRecentForm (apiLeagueId comp) (season comp) away = Resolved rA.

(** The rates and the context of a prediction. *)
Definition rate_home {lookup : StatsLookup} (comp : Competition) (f : Fixture) : R :=
  fst (fst (fixtureRates comp f)).

Definition rate_away {lookup : StatsLookup} (comp : Competition) (f : Fixture) : R :=
  snd (fst (fixtureRates comp f)).

Definition context_of {lookup : StatsLookup} (comp : Competition) (f : Fixture)
    : MatchContext :=
  snd (fixtureRates comp f).

(** The store [st] at a later state [w] of the world. *)
Definition at_world {World : Type} (st : Remote.Store World) (w : World)
    : Remote.Store World :=
  Remote.mkStore (Remote.teamStatsCache st) (Remote.teamFormCache st) w.

(** The completion is not that of a statistics lookup, or of a recent-form
    lookup, for the triple. *)
Definition other_than_stats (league season team : nat)
    (c : Remote.Completion) : bool :=
  match c with
  | Remote.StatsDone l s t _ =>
      negb ((l =? league)%nat && (s =? season)%nat && (t =? team)%nat)
  | Remote.FormDone _ _ _ _ => true
  end.

Definition other_than_form (league season team : nat)
    (c : Remote.Completion) : bool :=
  match c with
  | Remote.StatsDone _ _ _ _ => true
  | Remote.FormDone l s t _ =>
      negb ((l =? league)%nat && (s =? season)%nat && (t =? team)%nat)
  end.

(** A provider whose every call fails without an HTTP status. *)
Definition unreachable : Remote.Provider nat :=
  Remote.scripted
    (fun _ _ => Remote.Failed (Remote.mkFetchError None "network"%string)).

(** No character of the string is the separator of the cache keys. *)
Fixpoint no_dash (s : string) : Prop :=
  match s with
  | EmptyString => True
  | String c rest => c <> "-"%char /\ no_dash rest
  end.

(** The form cache holds no empty list. *)
Definition form_cache_wf {World : Type} (st : Remote.Store World) : Prop :=
  forall key : string, Remote.teamFormCache st key <> Some (Some []).

(** Goals of both sides over a list of fixtures, absent goals counting 0. *)
Definition fixture_goals (l : list Remote.RawFixture) : R :=
  fold_right (fun f acc => opt_or0 (Remote.goals_home f)
                           + opt_or0 (Remote.goals_away f) + acc) 0 l.




(** Non-negativity of an accumulator as the loop leaves it: 0 plus a
    product of two positive terms per visited score. *)
Ltac nonneg_sum Hp Hq :=
  lazymatch goal with
  | |- 0 <= 0 => apply Rle_refl
  | |- 0 <= _ + _ =>
      apply Rplus_le_le_0_compat;
      [nonneg_sum Hp Hq
      |apply Rlt_le, Rmult_lt_0_compat; [apply Hp|apply Hq]]
  end.

Ltac pos_sum Hp Hq :=
  apply Rplus_le_lt_0_compat;
  [nonneg_sum Hp Hq|apply Rmult_lt_0_compat; [apply Hp|apply Hq]].

(** * Properties *)

(** ** Sorting and coercion *)

Lemma insert_length {A : Type} (cmp : A -> A -> R) (x : A) (l : list A) :
  List.length (insert cmp x l) = S (List.length l).
Proof.
  induction l as [|y t IH]; simpl; [reflexivity|].
  destruct (Rgt_dec (cmp x y) 0); simpl; [rewrite IH|]; reflexivity.
Qed.

Lemma sort_length {A : Type} (cmp : A -> A -> R) (l : list A) :
  List.length (sort cmp l) = List.length l.
Proof.
  induction l as [|x t IH]; simpl; [reflexivity|].
  unfold sort in *. rewrite insert_length, IH. reflexivity.
Qed.

(** An array of two or more numbers coerces to NaN. *)
Lemma array_to_number_long (s : list R) :
  (2 <= List.length s)%nat -> array_to_number s = NaN.
Proof.
  destruct s as [|x [|y t]]; simpl; intros H; try lia; reflexivity.
Qed.

(** The clarity signal is NaN whatever the probabilities are: the sorted
    array itself, not its first two elements, is subtracted. *)
Lemma clarity_NaN (h d a : R) : computeDistributionClarity h d a = NaN.
Proof.
  unfold computeDistributionClarity.
  rewrite array_to_number_long by (rewrite sort_length; simpl; lia).
  reflexivity.
Qed.

(** NaN goes through the weighted sum, the rounding and the clamp. *)
Lemma percent_NaN (pH pD pA : R) (context : option MatchContext) :
  percent (buildRealConfidence pH pD pA context) = NaN.
Proof.
  unfold buildRealConfidence.
  rewrite clarity_NaN.
  destruct context; reflexivity.
Qed.

Lemma clamp_number_NaN (min max : R) : clamp_number NaN min max = NaN.
Proof. reflexivity. Qed.

Lemma NaN_not_in_band : ~ in_band NaN.
Proof. intros [n [H _]]. discriminate H. Qed.

(** On a finite score the rounding and the clamp do land in the band: the
    clamp itself is sound, only NaN escapes it. *)
Lemma clamp_round_in_band (r : R) :
  in_band (clamp_number (Math_round (Num r)) 25 75).
Proof.
  unfold clamp_number, Math_round, Math_max, Math_min, lift2, round.
  set (k := Int_part (r + / 2)).
  destruct (Z_lt_le_dec k 25) as [Hlo|Hlo].
  - exists 25%Z. split; [|lia]. f_equal.
    apply IZR_lt in Hlo.
    rewrite (Rmin_right 75 (IZR k)) by lra.
    rewrite Rmax_left by lra. reflexivity.
  - destruct (Z_lt_le_dec 75 k) as [Hhi|Hhi].
    + exists 75%Z. split; [|lia]. f_equal.
      apply IZR_lt in Hhi.
      rewrite (Rmin_left 75 (IZR k)) by lra.
      rewrite Rmax_right by lra. reflexivity.
    + exists k. split; [|lia]. f_equal.
      apply IZR_le in Hlo. apply IZR_le in Hhi.
      rewrite (Rmin_right 75 (IZR k)) by lra.
      rewrite Rmax_right by lra. reflexivity.
Qed.

(** C1 (defect): the percentage computed by [buildRealConfidence] is NaN
    for every input, and so is the confidence of every prediction after the
    clamp: it is never an integer of the band 25..75 that the clamp is
    meant to enforce. *)
Theorem confidence_is_NaN :
  (forall (pH pD pA : R) (context : option MatchContext),
      percent (buildRealConfidence pH pD pA context) = NaN) /\
  (forall (lambdaHome lambdaAway : R) (ctx : MatchContext),
      confidence (buildPrediction lambdaHome lambdaAway ctx) = NaN /\
      ~ in_band (confidence (buildPrediction lambdaHome lambdaAway ctx))).
Proof.
  split; [exact percent_NaN|].
  intros lambdaHome lambdaAway ctx.
  assert (H : confidence (buildPrediction lambdaHome lambdaAway ctx) = NaN).
  { unfold buildPrediction, assign_tags. cbn [confidence].
    rewrite percent_NaN. apply clamp_number_NaN. }
  split; [exact H|]. rewrite H. exact NaN_not_in_band.
Qed.

Lemma clarity_spec_50_30_20 : clarity_spec 50 30 20 = 0.5.
Proof.
  unfold clarity_spec, sort. cbn [fold_right insert].
  decide_R. cbn [insert]. decide_R.
  unfold clamp.
  rewrite (Rmin_right 1) by lra. rewrite Rmax_right by lra. lra.
Qed.

(** C2 (defect): the code's clarity is NaN for every triple, whereas the
    gap of the two largest probabilities over 40, clamped, is for instance
    0.5 at (50, 30, 20). *)
Theorem clarity_is_not_the_gap :
  (forall h d a : R, computeDistributionClarity h d a = NaN) /\
  clarity_spec 50 30 20 = 0.5 /\
  computeDistributionClarity 50 30 20 <> Num (clarity_spec 50 30 20).
Proof.
  split; [exact clarity_NaN|]. split; [exact clarity_spec_50_30_20|].
  rewrite clarity_NaN. discriminate.
Qed.

(** ** Main pick *)

(** The first element of the sorted array does carry the specified label. *)
Lemma sorted_head_is_spec (pH pD pA : R) :
  option_map key (hd_error (sort (fun a b2 => val b2 - val a) (picks pH pD pA)))
  = Some (mainPick_spec pH pD pA).
Proof.
  unfold picks, sort, mainPick_spec, Rgeb. cbn [fold_right insert val].
  destruct (Rgt_dec (pA - pD) 0); cbn [insert val];
    destruct (Rgt_dec (pA - pH) 0); cbn [insert val];
    destruct (Rgt_dec (pD - pH) 0); cbn [insert val hd_error option_map key];
    destruct (Rge_dec pH pD); destruct (Rge_dec pH pA);
    destruct (Rge_dec pD pA); cbn [andb]; try reflexivity; lra.
Qed.

(** C3 (defect): [mainPick] reads the property [key] of the sorted array
    rather than of its first element, so it is [undefined] for every
    prediction and never one of the three labels. *)
Theorem mainPick_is_undefined (lambdaHome lambdaAway : R) (ctx : MatchContext) :
  mainPick (buildPrediction lambdaHome lambdaAway ctx) = Undefined /\
  forall s : string, mainPick (buildPrediction lambdaHome lambdaAway ctx) <> Str s.
Proof.
  assert (H : mainPick (buildPrediction lambdaHome lambdaAway ctx) = Undefined)
    by reflexivity.
  split; [exact H|]. intros s. rewrite H. discriminate.
Qed.

(** ** Complementary markets *)

(** C5: the second member of each market is 100 minus the first, so each
    pair adds up to 100 (in exact arithmetic). *)
Theorem markets_complementary (lambdaHome lambdaAway : R) (ctx : MatchContext) :
  let p := buildPrediction lambdaHome lambdaAway ctx in
  under25 (goals p) = 100 - over25 (goals p) /\
  no (btts p) = 100 - yes (btts p) /\
  over25 (goals p) + under25 (goals p) = 100 /\
  yes (btts p) + no (btts p) = 100.
Proof.
  unfold buildPrediction, assign_tags.
  cbn [goals btts over25 under25 yes no].
  repeat split; ring.
Qed.

(** ** Form factors *)

(** C9: no recent-form data, be it [null] or an empty array, gives the
    neutral factors and a sample count of 0. *)
Theorem computeFormFactor_neutral :
  computeFormFactor None = mkFormFactor 1 1 0 /\
  computeFormFactor (Some []) = mkFormFactor 1 1 0.
Proof. split; reflexivity. Qed.

(** ** Confidence components *)

Lemma or0_id (x : R) : or0 x = x.
Proof. unfold or0, truthy. destruct (Req_dec_T x 0); congruence. Qed.

Lemma Rgeb_min (x y k : R) : Rgeb (Rmin x y) k = Rgeb x k && Rgeb y k.
Proof.
  unfold Rgeb, Rmin.
  destruct (Rle_dec x y); destruct (Rge_dec x k); destruct (Rge_dec y k);
    cbn [andb]; try reflexivity; exfalso; lra.
Qed.

(** C10: the scorer computes its three heuristic components from the four
    match counts of the context it is given and from nothing else.  For
    every context, [dataQ] is 1, 0.7 or 0.4 as both season totals reach 5,
    both reach 3, or not; [sample] is the sum of the season totals over
    40, capped at 1; [recent] is 1, 0.7, 0.5 or 0.3 as both counts of
    recent matches reach 5, 3, 1, or not.  So the fields [dataQuality],
    [sampleSize] and [recentFactor] are never read: two contexts with the
    same counts give the same result whatever those fields hold.  With the
    counts 3, 4, 1 and 9 the components are 0.7, 0.175 and 0.5 although
    the context stores 0.3 three times; and on the context every degraded
    prediction carries (no matches at all, the three fields at 0.3) they
    are 0.4, 0 and 0.3. *)
Theorem confidence_recomputes_components :
  (forall (pH pD pA hT aT hR aR dq ss rf : R),
      heuristics (buildRealConfidence pH pD pA
                    (Some (mkContext hT aT hR aR dq ss rf)))
      = (quality_signal hT aT, sample_signal hT aT, recent_by_counts hR aR)) /\
  (forall (pH pD pA hT aT hR aR dq ss rf dq' ss' rf' : R),
      buildRealConfidence pH pD pA (Some (mkContext hT aT hR aR dq ss rf))
      = buildRealConfidence pH pD pA
          (Some (mkContext hT aT hR aR dq' ss' rf'))) /\
  (forall pH pD pA : R,
      heuristics (buildRealConfidence pH pD pA
                    (Some (mkContext 3 4 1 9 0.3 0.3 0.3)))
      = (0.7, 0.175, 0.5)) /\
  (forall pH pD pA : R,
      heuristics (buildRealConfidence pH pD pA (Some initial_context))
      = (0.4, 0, 0.3)) /\
  (dataQuality initial_context, sampleSize initial_context,
   recentFactor initial_context) = (0.3, 0.3, 0.3).
Proof.
  assert (Hcomp : forall (pH pD pA hT aT hR aR dq ss rf : R),
      heuristics (buildRealConfidence pH pD pA
                    (Some (mkContext hT aT hR aR dq ss rf)))
      = (quality_signal hT aT, sample_signal hT aT, recent_by_counts hR aR)).
  { intros. unfold heuristics, buildRealConfidence.
    cbn [homeMatchesTotal awayMatchesTotal homeRecentMatches awayRecentMatches].
    rewrite !or0_id, !Rgeb_min.
    cbn [components dataQ sample recent].
    reflexivity. }
  split; [exact Hcomp|]. split; [|split; [|split]].
  - intros. reflexivity.
  - intros pH pD pA. rewrite Hcomp.
    unfold quality_signal, sample_signal, recent_by_counts.
    rewrite (Rmin_right 1 ((3 + 4) / 40)) by lra.
    unfold Rgeb. decide_R. cbn [andb].
    repeat f_equal; lra.
  - intros pH pD pA. unfold initial_context. rewrite Hcomp.
    unfold quality_signal, sample_signal, recent_by_counts.
    rewrite (Rmin_right 1 ((0 + 0) / 40)) by lra.
    unfold Rgeb. decide_R. cbn [andb].
    repeat f_equal; lra.
  - reflexivity.
Qed.

(** ** Match profile *)

Lemma Rgeb_true (x y : R) : Rgeb x y = true <-> x >= y.
Proof. unfold Rgeb. destruct (Rge_dec x y); split; intros; congruence. Qed.

Lemma classify_rules_tags :
  map snd classify_rules ++ ["NEUTRAL"%string] = match_tags.
Proof. reflexivity. Qed.

(** C8: [getMatchProfile] always answers one tag of the fixed set, it is
    the first matching rule of the ordered table, and a prediction meeting
    both the GOALS_GAME and the STRONG_HOME conditions is a GOALS_GAME. *)
Theorem getMatchProfile_priority (p : Prediction) :
  In (getMatchProfile p) match_tags /\
  NoDup match_tags /\
  getMatchProfile p = classifyMatch_spec p /\
  (over25 (goals p) >= 60 -> yes (btts p) >= 55 -> probHome p >= 55 ->
   getMatchProfile p = "GOALS_GAME"%string).
Proof.
  assert (Hspec : getMatchProfile p = classifyMatch_spec p).
  { unfold getMatchProfile, classifyMatch_spec, classify_rules.
    cbn [find fst snd].
    destruct (Rgeb (over25 (goals p)) 60 && Rgeb (yes (btts p)) 55);
      [reflexivity|].
    destruct (Rgeb (probHome p) 50 && Rgeb (under25 (goals p)) 55);
      [reflexivity|].
    destruct (Rleb (Rabs (probHome p - probAway p)) 10
              && Rgeb (yes (btts p)) 60); [reflexivity|].
    destruct (Rltb (probHome p) 40 && Rltb (probAway p) 40
              && Rgtb (probDraw p) 25); [reflexivity|].
    destruct (Rgeb (probHome p) 55); [reflexivity|].
    destruct (Rgeb (probAway p) 55); reflexivity. }
  split; [|split; [|split]].
  - rewrite Hspec. unfold classifyMatch_spec.
    destruct (find _ classify_rules) as [rule|] eqn:Hfind.
    + apply find_some in Hfind. destruct Hfind as [Hin _].
      rewrite <- classify_rules_tags. apply in_or_app. left.
      apply in_map. exact Hin.
    + unfold match_tags. simpl. tauto.
  - unfold match_tags.
    repeat (constructor; [simpl; intuition discriminate|]). constructor.
  - exact Hspec.
  - intros Ho Hb _. unfold getMatchProfile.
    apply Rgeb_true in Ho. apply Rgeb_true in Hb. rewrite Ho, Hb.
    reflexivity.
Qed.

Lemma getMatchProfile_priority_witness :
  getMatchProfile goals_and_strong_home = "GOALS_GAME"%string.
Proof.
  destruct (getMatchProfile_priority goals_and_strong_home)
    as [_ [_ [_ H]]].
  apply H; unfold goals_and_strong_home; simpl; lra.
Defined.

(** ** Degraded path of the orchestrator *)

Lemma toFixed2_hundredths (z : Z) : (0 <= z)%Z -> toFixed2 (IZR z / 100) = IZR z / 100.
Proof.
  intros Hz. apply IZR_le in Hz. unfold toFixed2, round.
  destruct (Rlt_dec (IZR z / 100) 0) as [Hneg|_]; [lra|].
  rewrite <- (Int_part_spec (IZR z / 100 * 100 + / 2) z); [reflexivity|].
  lra.
Qed.

Lemma promise_all4_resolved {A B C D : Type} (a : outcome A) (b : outcome B)
    (c : outcome C) (d : outcome D) (x : A) (y : B) (z : C) (w : D) :
  promise_all4 a b c d = Resolved (x, y, z, w) ->
  a = Resolved x /\ b = Resolved y /\ c = Resolved z /\ d = Resolved w.
Proof.
  destruct a, b, c, d; simpl; intros H; try discriminate H.
  injection H as -> -> -> ->. repeat split; reflexivity.
Qed.

Lemma promise_all4_rejected {A B C D : Type} (a : outcome A) (b : outcome B)
    (c : outcome C) (d : outcome D) :
  (exists m, a = Rejected m) \/ (exists m, b = Rejected m) \/
  (exists m, c = Rejected m) \/ (exists m, d = Rejected m) ->
  exists m, promise_all4 a b c d = Rejected m.
Proof.
  intros H. destruct a, b, c, d; simpl; try (eexists; reflexivity).
  destruct H as [[m H]|[[m H]|[[m H]|[m H]]]]; discriminate H.
Qed.

(** What a prediction from the fallback rates and context reports. *)
Lemma degraded_rates_prediction (lookup : StatsLookup) (comp : Competition)
    (f : Fixture) :
  fixtureRates comp f = (1.35, 1.25, initial_context) ->
  fixtureRates comp f = (1.35, 1.25, initial_context) /\
  buildPredictionForFixture comp f = buildPrediction 1.35 1.25 initial_context /\
  lambdas (buildPredictionForFixture comp f) = mkLambdas 1.35 1.25 /\
  (dataQuality initial_context, sampleSize initial_context,
   recentFactor initial_context) = (0.3, 0.3, 0.3) /\
  (details_dataQuality (confidenceDetails (buildPredictionForFixture comp f)),
   details_sampleSize (confidenceDetails (buildPredictionForFixture comp f)),
   details_recentFactor (confidenceDetails (buildPredictionForFixture comp f)))
  = (0.3, 0.3, 0.3).
Proof.
  intros Hrates.
  assert (Hpred : buildPredictionForFixture comp f
                  = buildPrediction 1.35 1.25 initial_context).
  { unfold buildPredictionForFixture. rewrite Hrates. reflexivity. }
  split; [exact Hrates|]. split; [exact Hpred|].
  rewrite Hpred. split; [|split; reflexivity].
  unfold buildPrediction, assign_tags. cbn [lambdas].
  replace 1.35 with (IZR 135 / 100) by lra.
  replace 1.25 with (IZR 125 / 100) by lra.
  rewrite !toFixed2_hundredths by lia. reflexivity.
Qed.

(** A lookup that is rejected, whichever of the four, is caught: the
    fixture is predicted from the fallback all the same. *)
Lemma rejected_lookup_degrades (lookup : StatsLookup) (comp : Competition)
    (f : Fixture) (home away : nat) :
  id_truthy (home_id f) = Some home ->
  id_truthy (away_id f) = Some away ->
  (exists m, getTeamStats (apiLeagueId comp) (season comp) home = Rejected m) \/
  (exists m, getTeamStats (apiLeagueId comp) (season comp) away = Rejected m) \/
  (exists m, getTeamRecentForm (apiLeagueId comp) (season comp) home = Rejected m) \/
  (exists m, getTeamRecentForm (apiLeagueId comp) (season comp) away = Rejected m) ->
  buildPredictionForFixture comp f = buildPrediction 1.35 1.25 initial_context.
Proof.
  intros Hh Ha Hrej.
  apply promise_all4_rejected in Hrej. destruct Hrej as [m Hm].
  apply degraded_rates_prediction.
  unfold fixtureRates. rewrite Hh, Ha, Hm. reflexivity.
Qed.

(** C7: when the statistics lookup of either team answers no data, the
    fixture is still predicted, from the neutral rates 1.35 and 1.25 and
    from the initial context, whose three quality signals are 0.3; the
    result reports these rates and these signals. *)
Theorem degraded_prediction (lookup : StatsLookup) (comp : Competition)
    (f : Fixture) :
  (forall home away : nat,
      id_truthy (home_id f) = Some home ->
      id_truthy (away_id f) = Some away ->
      getTeamStats (apiLeagueId comp) (season comp) home = Resolved None \/
      getTeamStats (apiLeagueId comp) (season comp) away = Resolved None) ->
  fixtureRates comp f = (1.35, 1.25, initial_context) /\
  buildPredictionForFixture comp f = buildPrediction 1.35 1.25 initial_context /\
  lambdas (buildPredictionForFixture comp f) = mkLambdas 1.35 1.25 /\
  (dataQuality initial_context, sampleSize initial_context,
   recentFactor initial_context) = (0.3, 0.3, 0.3) /\
  (details_dataQuality (confidenceDetails (buildPredictionForFixture comp f)),
   details_sampleSize (confidenceDetails (buildPredictionForFixture comp f)),
   details_recentFactor (confidenceDetails (buildPredictionForFixture comp f)))
  = (0.3, 0.3, 0.3).
Proof.
  intros Hmiss.
  assert (Hrates : fixtureRates comp f = (1.35, 1.25, initial_context)).
  { unfold fixtureRates.
    destruct (id_truthy (home_id f)) as [home|] eqn:Hh; [|reflexivity].
    destruct (id_truthy (away_id f)) as [away|] eqn:Ha; [|reflexivity].
    destruct (promise_all4 _ _ _ _) as [[[[stH stA] rH] rA]|m] eqn:Hall;
      [|reflexivity].
    apply promise_all4_resolved in Hall. destruct Hall as [EH [EA _]].
    destruct (Hmiss home away eq_refl eq_refl) as [E|E].
    - rewrite E in EH. injection EH as <-. reflexivity.
    - rewrite E in EA. injection EA as <-. destruct stH; reflexivity. }
  apply (degraded_rates_prediction lookup comp f Hrates).
Qed.

Lemma degraded_prediction_witness :
  @buildPredictionForFixture home_only_lookup
     (mkCompetition 39 2024) (mkFixture (Some 1%nat) (Some 2%nat))
  = buildPrediction 1.35 1.25 initial_context.
Proof.
  apply (degraded_prediction home_only_lookup
           (mkCompetition 39 2024) (mkFixture (Some 1%nat) (Some 2%nat))).
  intros home away Hh Ha. simpl in Hh, Ha. injection Ha as <-.
  right. reflexivity.
Defined.

(** ** The scoreline grid in closed form *)

(** The five accumulators after the double loop over the scores 0..7, for
    arbitrary goal distributions [p] (home) and [q] (away). *)
Lemma grid_closed (p q : nat -> R) :
  let w := grid 7 (map p (seq 0 8)) (map q (seq 0 8)) in
  wH w = sumf (fun h => p h * sumf q h) 8 /\
  wD w = sumf (fun h => p h * q h) 8 /\
  wA w = sumf (fun h => p h * (sumf q 8 - sumf q (S h))) 8 /\
  wH w + wD w + wA w = sumf p 8 * sumf q 8.
Proof.
  cbv [grid fold_left seq cell nth map Nat.ltb Nat.leb Nat.eqb Nat.add andb
       wH wD wA ov b sumf].
  repeat split; ring.
Qed.

(** ** Factorial and the Poisson terms *)

Lemma factorial_loop (n : nat) :
  fold_left (fun r i => r * INR i) (seq 2 n) 1 = INR (fact (S n)).
Proof.
  induction n as [|n IH].
  - simpl. lra.
  - rewrite seq_S, fold_left_app, IH.
    cbn [fold_left]. change (2 + n)%nat with (S (S n)).
    rewrite <- mult_INR. f_equal. simpl. lia.
Qed.

Lemma factorial_fact (n : nat) : factorial n = INR (fact n).
Proof.
  unfold factorial. destruct n as [|[|n]]; cbn [Nat.leb].
  - simpl. lra.
  - simpl. lra.
  - replace (S (S n) - 1)%nat with (S n) by lia. apply factorial_loop.
Qed.

(** The memo table is transparent: from a sound table [factorial_cached]
    answers [factorial n] and leaves a sound table. *)
Lemma factorial_cached_value (factCache : FactCache) (n : nat) :
  cache_sound factCache ->
  fst (factorial_cached factCache n) = factorial n /\
  cache_sound (snd (factorial_cached factCache n)).
Proof.
  intros Hsound. unfold factorial_cached.
  assert (Hstore : cache_sound
            (fun k => if (k =? n)%nat
                      then Some (fold_left (fun r i => r * INR i)
                                           (seq 2 (n - 1)) 1)
                      else factCache k) \/ (n <= 1)%nat).
  { destruct (Nat.leb_spec n 1) as [Hle|Hgt]; [right; exact Hle|left].
    intros k r. destruct (Nat.eqb_spec k n) as [->|_].
    - intros [= <-]. unfold factorial.
      destruct (Nat.leb_spec n 1); [lia|reflexivity].
    - apply Hsound. }
  destruct (n <=? 1)%nat eqn:Hn.
  - split; [unfold factorial; rewrite Hn; reflexivity|exact Hsound].
  - apply Nat.leb_gt in Hn. destruct Hstore as [Hstore|Hle]; [|lia].
    assert (Hloop : fold_left (fun r i => r * INR i) (seq 2 (n - 1)) 1
                    = factorial n).
    { unfold factorial. destruct (Nat.leb_spec n 1); [lia|reflexivity]. }
    destruct (factCache n) as [r|] eqn:Hc.
    + destruct (truthy r).
      * split; [exact (Hsound n r Hc)|exact Hsound].
      * split; [exact Hloop|exact Hstore].
    + split; [exact Hloop|exact Hstore].
Qed.

Lemma cache_sound_empty : cache_sound (fun _ => None).
Proof. intros n r H. discriminate H. Qed.

Lemma factorial_pos (n : nat) : 0 < factorial n.
Proof. rewrite factorial_fact. apply INR_fact_lt_0. Qed.

Lemma poissonPMF_poisson (lambda : R) (k : nat) :
  0 < lambda -> poissonPMF lambda k = poisson k lambda.
Proof.
  intros Hl. unfold poissonPMF, poisson.
  destruct (Rle_dec lambda 0); [lra|]. rewrite factorial_fact. reflexivity.
Qed.

Lemma poisson_pos (k : nat) (x : R) : 0 < x -> 0 < poisson k x.
Proof.
  intros Hx. unfold poisson, Rdiv.
  apply Rmult_lt_0_compat; [apply Rmult_lt_0_compat|].
  - apply exp_pos.
  - apply pow_lt; exact Hx.
  - apply Rinv_0_lt_compat, INR_fact_lt_0.
Qed.

Lemma sumf_ext (f g : nat -> R) (n : nat) :
  (forall k, (k < n)%nat -> f k = g k) -> sumf f n = sumf g n.
Proof.
  induction n as [|n IH]; intros H; simpl; [reflexivity|].
  rewrite IH by (intros; apply H; lia). rewrite H by lia. reflexivity.
Qed.

Lemma sumf_pos (f : nat -> R) (n : nat) :
  (forall k, 0 < f k) -> 0 < sumf f (S n).
Proof.
  intros H. induction n as [|n IH].
  - simpl. specialize (H O). lra.
  - cbn [sumf] in *. specialize (H (S n)). lra.
Qed.

Lemma sumf_sum_f_R0 (f : nat -> R) (n : nat) : sumf f (S n) = sum_f_R0 f n.
Proof.
  induction n as [|n IH].
  - simpl. lra.
  - cbn [sumf sum_f_R0] in *. rewrite IH. reflexivity.
Qed.

(** Every partial sum of the exponential series at a positive point is
    strictly below the exponential. *)
Lemma exp_above_partial_sum (x : R) (n : nat) :
  0 < x -> sum_f_R0 (fun i => / INR (fact i) * x ^ i) n < exp x.
Proof.
  intros Hx.
  set (An := fun i : nat => / INR (fact i) * x ^ i).
  assert (Hterm : forall i, 0 < An i).
  { intros i. unfold An. apply Rmult_lt_0_compat.
    - apply Rinv_0_lt_compat, INR_fact_lt_0.
    - apply pow_lt; exact Hx. }
  assert (Hcv : Un_cv (fun N => sum_f_R0 An N) (exp x)).
  { exact (proj2_sig (exist_exp x)). }
  pose proof (sum_incr An (S n) (exp x) Hcv
                (fun i => Rlt_le _ _ (Hterm i))) as Hle.
  cbn [sum_f_R0] in Hle. specialize (Hterm (S n)). lra.
Qed.

Lemma truncated_mass_bounds (lambda : R) :
  0 < lambda -> 0 < truncated_mass lambda < 1.
Proof.
  intros Hl. unfold truncated_mass. split.
  - apply sumf_pos. intros k. rewrite poissonPMF_poisson by exact Hl.
    apply poisson_pos; exact Hl.
  - rewrite (sumf_ext _ (fun k => exp (- lambda) * (/ INR (fact k) * lambda ^ k))).
    2:{ intros k _. rewrite poissonPMF_poisson by exact Hl.
        unfold poisson. field. apply INR_fact_neq_0. }
    assert (Hscal : forall n, sumf (fun k => exp (- lambda)
                                 * (/ INR (fact k) * lambda ^ k)) n
                     = exp (- lambda) * sumf (fun k => / INR (fact k) * lambda ^ k) n).
    { induction n as [|n IH]; simpl; [ring|]. rewrite IH. ring. }
    rewrite Hscal, sumf_sum_f_R0.
    pose proof (exp_above_partial_sum lambda 7 Hl) as Hlt.
    pose proof (exp_pos lambda) as Hpos.
    rewrite exp_Ropp.
    apply (Rmult_lt_reg_l (exp lambda)); [exact Hpos|].
    rewrite <- Rmult_assoc, Rinv_r by lra. lra.
Qed.

(** ** Mixtures of Poisson terms and their derivative *)

Lemma exp_opp_derivative (x : R) :
  derivable_pt_lim (fun y => exp (- y)) x (- exp (- x)).
Proof.
  apply (derivable_pt_lim_ext (comp exp (- id)%F)); [intros z; reflexivity|].
  replace (- exp (- x)) with (exp ((- id)%F x) * - 1)
    by (unfold opp_fct, id; ring).
  apply derivable_pt_lim_comp.
  - apply derivable_pt_lim_opp, derivable_pt_lim_id.
  - apply derivable_pt_lim_exp.
Qed.

Lemma poisson_derivative (k : nat) (x : R) :
  derivable_pt_lim (poisson k) x (poisson_slope k x).
Proof.
  pose proof (derivable_pt_lim_mult _ _ x _ _ (exp_opp_derivative x)
                (derivable_pt_lim_pow x k)) as Hmul.
  pose proof (derivable_pt_lim_div_scal _ x _ (INR (fact k)) Hmul) as Hdiv.
  apply (derivable_pt_lim_ext _ (poisson k)) in Hdiv;
    [|intros z; reflexivity].
  replace (poisson_slope k x)
    with ((- exp (- x) * x ^ k + exp (- x) * (INR k * x ^ pred k))
          / INR (fact k)); [exact Hdiv|].
  destruct k as [|j].
  - unfold poisson_slope, poisson. simpl. field.
  - unfold poisson_slope, poisson. cbn [pred].
    pose proof (INR_fact_neq_0 j) as Hj.
    pose proof (INR_fact_neq_0 (S j)) as HSj.
    assert (HS : INR (fact (S j)) = INR (S j) * INR (fact j)).
    { rewrite <- mult_INR. reflexivity. }
    assert (Hn : INR (S j) <> 0) by (apply not_0_INR; discriminate).
    rewrite HS. field. split; assumption.
Qed.

Lemma mixture_derivative (c : nat -> R) (n : nat) (x : R) :
  derivable_pt_lim (mixture c n) x (mixture_slope c n x).
Proof.
  induction n as [|n IH]; unfold mixture, mixture_slope in *; cbn [sumf].
  - apply (derivable_pt_lim_const 0).
  - apply (derivable_pt_lim_plus _ (fun y => c n * poisson n y) x _ _ IH).
    apply (derivable_pt_lim_scal (poisson n) (c n)).
    apply poisson_derivative.
Qed.

(** Mean value theorem on a mixture. *)
Lemma mixture_mean_value (c : nat -> R) (n : nat) (x y : R) :
  x < y ->
  exists z : R,
    mixture c n y - mixture c n x = mixture_slope c n z * (y - x) /\
    x < z < y.
Proof.
  intros Hxy.
  apply (MVT_cor2 (mixture c n) (mixture_slope c n) x y Hxy).
  intros z _. apply mixture_derivative.
Qed.

(** ** Size of the truncation loss on the modelled range *)

Lemma exp_double_bound (x lo lo' : R) :
  lo <= exp (Ropp x) -> 0 <= lo -> lo' <= lo * lo ->
  lo' <= exp (Ropp (2 * x)).
Proof.
  intros Hlo H0 Hsq.
  replace (Ropp (2 * x)) with (Ropp x + Ropp x) by ring.
  rewrite exp_plus.
  assert (lo * lo <= exp (Ropp x) * exp (Ropp x))
    by (apply Rmult_le_compat; assumption).
  lra.
Qed.

(** A lower bound of [exp (-3.2)], by eleven squarings from
    [exp (-1/640) >= 1 - 1/640]. *)
Lemma exp_opp_32_lower : 0.040660319709 <= exp (Ropp 3.2).
Proof.
  assert (H : 639 / 640 <= exp (Ropp (1 / 640))).
  { pose proof (exp_ineq1_le (Ropp (1 / 640))). lra. }
  apply (exp_double_bound _ _ 0.996877441406) in H; [|lra|lra].
  apply (exp_double_bound _ _ 0.993764633184) in H; [|lra|lra].
  apply (exp_double_bound _ _ 0.987568146167) in H; [|lra|lra].
  apply (exp_double_bound _ _ 0.975290843323) in H; [|lra|lra].
  apply (exp_double_bound _ _ 0.951192229069) in H; [|lra|lra].
  apply (exp_double_bound _ _ 0.904766656641) in H; [|lra|lra].
  apply (exp_double_bound _ _ 0.818602702969) in H; [|lra|lra].
  apply (exp_double_bound _ _ 0.670110385308) in H; [|lra|lra].
  apply (exp_double_bound _ _ 0.449047928497) in H; [|lra|lra].
  apply (exp_double_bound _ _ 0.201644042087) in H; [|lra|lra].
  apply (exp_double_bound _ _ 0.040660319709) in H; [|lra|lra].
  replace 3.2 with (2 * (2 * (2 * (2 * (2 * (2 * (2 * (2 * (2 * (2 * (2
                     * (1 / 640)))))))))))) by lra.
  exact H.
Qed.

Lemma truncated_mass_mixture (lambda : R) :
  0 < lambda -> truncated_mass lambda = mixture (fun _ => 1) 8 lambda.
Proof.
  intros Hl. unfold truncated_mass, mixture. apply sumf_ext.
  intros k _. rewrite poissonPMF_poisson by exact Hl. ring.
Qed.

(** The mass kept by the grid shrinks as the rate grows. *)
Lemma truncated_mass_decreasing (x y : R) :
  0 < x -> x < y -> truncated_mass y < truncated_mass x.
Proof.
  intros Hx Hxy.
  rewrite !truncated_mass_mixture by lra.
  destruct (mixture_mean_value (fun _ => 1) 8 x y Hxy) as [z [E [Hz1 Hz2]]].
  replace (mixture_slope (fun _ => 1) 8 z) with (- poisson 7 z) in E
    by (cbv [mixture_slope sumf poisson_slope]; ring).
  pose proof (poisson_pos 7 z ltac:(lra)) as Hp.
  assert (0 < poisson 7 z * (y - x)) by (apply Rmult_lt_0_compat; lra).
  lra.
Qed.

Lemma truncated_mass_32 : 0.98 < truncated_mass 3.2.
Proof.
  rewrite truncated_mass_mixture by lra.
  cbv [mixture sumf]. unfold poisson. fact_lit.
  pose proof exp_opp_32_lower as H.
  set (u := exp (Ropp 3.2)) in *. simpl. lra.
Qed.

Lemma truncated_mass_range (lambda : R) :
  0 < lambda <= 3.2 -> 0.98 < truncated_mass lambda.
Proof.
  intros [H0 H1]. pose proof truncated_mass_32 as H.
  destruct (Rle_lt_or_eq_dec _ _ H1) as [Hlt|Heq].
  - pose proof (truncated_mass_decreasing lambda 3.2 H0 Hlt). lra.
  - rewrite Heq. exact H.
Qed.

(** ** Total outcome mass *)

Lemma outcome_sum_mass (lambdaHome lambdaAway : R) (ctx : MatchContext) :
  outcome_sum (buildPrediction lambdaHome lambdaAway ctx)
  = 100 * (truncated_mass lambdaHome * truncated_mass lambdaAway).
Proof.
  unfold outcome_sum, buildPrediction, assign_tags, truncated_mass.
  cbn [probHome probDraw probAway].
  destruct (grid_closed (poissonPMF lambdaHome) (poissonPMF lambdaAway))
    as [_ [_ [_ Hsum]]].
  cbv zeta in Hsum. rewrite <- Hsum. ring.
Qed.

Lemma exp_1_lower : 109601 / 40320 < exp 1.
Proof.
  pose proof (exp_above_partial_sum 1 8 ltac:(lra)) as H.
  cbn [sum_f_R0] in H. rewrite !pow1 in H.
  revert H. fact_lit. lra.
Qed.

Lemma truncated_mass_1 : truncated_mass 1 < 109600 / 109601.
Proof.
  unfold truncated_mass.
  rewrite (sumf_ext _ (fun k => poisson k 1))
    by (intros; apply poissonPMF_poisson; lra).
  cbv [sumf]. unfold poisson. rewrite !pow1. fact_lit.
  rewrite exp_Ropp.
  pose proof exp_1_lower as He.
  assert (Hu : 0 < / exp 1 < 40320 / 109601).
  { split; [apply Rinv_0_lt_compat; lra|].
    replace (40320 / 109601) with (/ (109601 / 40320)) by (field; lra).
    apply Rinv_lt_contravar; [|exact He].
    apply Rmult_lt_0_compat; lra. }
  lra.
Qed.

(** C4, as stated, fails: at the rates 1 and 1 the three outcome
    probabilities add up to less than 99.999, because the scores above 7
    goals are left out. *)
Lemma outcome_sum_not_within_tolerance :
  0 < 1 /\
  ~ Rabs (outcome_sum (buildPrediction 1 1 initial_context) - 100) <= 1e-6.
Proof.
  split; [lra|]. rewrite outcome_sum_mass.
  pose proof truncated_mass_1 as Hlt.
  pose proof (truncated_mass_bounds 1 ltac:(lra)) as [Hpos _].
  set (m := truncated_mass 1) in *.
  assert (Hsq : m * m < 109600 / 109601 * (109600 / 109601)).
  { apply Rmult_le_0_lt_compat; lra. }
  unfold Rabs. destruct (Rcase_abs (100 * (m * m) - 100)); lra.
Qed.

(** C4 (amended): for positive rates the three outcome probabilities add
    up to 100 times the product of the two truncated masses, a value
    strictly between 0 and 100; when both rates are at most 3.2, the upper
    end of the modelled range, it is above 96. *)
Theorem outcome_sum_truncated (lambdaHome lambdaAway : R) (ctx : MatchContext) :
  0 < lambdaHome -> 0 < lambdaAway ->
  outcome_sum (buildPrediction lambdaHome lambdaAway ctx)
  = 100 * (truncated_mass lambdaHome * truncated_mass lambdaAway) /\
  0 < outcome_sum (buildPrediction lambdaHome lambdaAway ctx) < 100 /\
  (lambdaHome <= 3.2 -> lambdaAway <= 3.2 ->
   96 < outcome_sum (buildPrediction lambdaHome lambdaAway ctx)).
Proof.
  intros HH HA. rewrite outcome_sum_mass. split; [reflexivity|].
  pose proof (truncated_mass_bounds lambdaHome HH) as [H1 H2].
  pose proof (truncated_mass_bounds lambdaAway HA) as [H3 H4].
  split.
  - assert (0 < truncated_mass lambdaHome * truncated_mass lambdaAway)
      by (apply Rmult_lt_0_compat; assumption).
    assert (truncated_mass lambdaHome * truncated_mass lambdaAway < 1 * 1)
      by (apply Rmult_le_0_lt_compat; lra).
    lra.
  - intros HH' HA'.
    pose proof (truncated_mass_range lambdaHome (conj HH HH')) as H5.
    pose proof (truncated_mass_range lambdaAway (conj HA HA')) as H6.
    assert (0.98 * 0.98 < truncated_mass lambdaHome * truncated_mass lambdaAway)
      by (apply Rmult_le_0_lt_compat; lra).
    lra.
Qed.

Lemma outcome_sum_truncated_witness :
  96 < outcome_sum (buildPrediction 1.35 1.25 initial_context) < 100.
Proof.
  destruct (outcome_sum_truncated 1.35 1.25 initial_context)
    as [_ [[_ Hlt] Hgt]]; [lra|lra|].
  split; [apply Hgt; lra|exact Hlt].
Defined.

(** ** How the outcome masses move with the home rate *)

(** Up to the rate 3.2 the term for 7 goals is the smallest of all. *)
Lemma poisson_7_least (a : nat) (x : R) :
  (a <= 6)%nat -> 0 < x <= 3.2 -> poisson 7 x < poisson a x.
Proof.
  intros Ha [Hx0 Hx1].
  pose proof (exp_pos (- x)) as HE.
  assert (Hpow : forall n, 0 < x ^ n /\ x ^ n <= 3.2 ^ n).
  { intros n. split; [apply pow_lt; exact Hx0|apply pow_incr; lra]. }
  assert (Hprod : forall n, 0 < exp (- x) * x ^ n).
  { intros n. apply Rmult_lt_0_compat; [exact HE|apply Hpow]. }
  assert (Hgap : forall n (m : R), 3.2 ^ (7 - n) < m ->
             0 < exp (- x) * x ^ n * (m - x ^ (7 - n))).
  { intros n m Hm. apply Rmult_lt_0_compat; [apply Hprod|].
    destruct (Hpow (7 - n)%nat). lra. }
  unfold poisson.
  destruct a as [|[|[|[|[|[|[|a]]]]]]]; [| | | | | | |lia]; fact_lit.
  - pose proof (Hgap 0%nat 5040 ltac:(simpl; lra)) as H. simpl in H |- *. lra.
  - pose proof (Hgap 1%nat 5040 ltac:(simpl; lra)) as H. simpl in H |- *. lra.
  - pose proof (Hgap 2%nat 2520 ltac:(simpl; lra)) as H. simpl in H |- *. lra.
  - pose proof (Hgap 3%nat 840 ltac:(simpl; lra)) as H. simpl in H |- *. lra.
  - pose proof (Hgap 4%nat 210 ltac:(simpl; lra)) as H. simpl in H |- *. lra.
  - pose proof (Hgap 5%nat 42 ltac:(simpl; lra)) as H. simpl in H |- *. lra.
  - pose proof (Hgap 6%nat 7 ltac:(simpl; lra)) as H. simpl in H |- *. lra.
Qed.

(** The home and away win probabilities as mixtures in the home rate. *)
Lemma probHome_mixture (lambdaHome lambdaAway : R) (ctx : MatchContext) :
  0 < lambdaHome ->
  probHome (buildPrediction lambdaHome lambdaAway ctx)
  = 100 * mixture (home_weight (poissonPMF lambdaAway)) 8 lambdaHome.
Proof.
  intros HH. unfold buildPrediction, assign_tags. cbn [probHome].
  destruct (grid_closed (poissonPMF lambdaHome) (poissonPMF lambdaAway))
    as [Hw _].
  cbv zeta in Hw. rewrite Hw. unfold mixture, home_weight.
  rewrite (sumf_ext _ (fun k => sumf (poissonPMF lambdaAway) k
                                * poisson k lambdaHome)).
  - ring.
  - intros k _. rewrite poissonPMF_poisson by exact HH. ring.
Qed.

Lemma probAway_mixture (lambdaHome lambdaAway : R) (ctx : MatchContext) :
  0 < lambdaHome ->
  probAway (buildPrediction lambdaHome lambdaAway ctx)
  = 100 * mixture (away_weight (poissonPMF lambdaAway)) 8 lambdaHome.
Proof.
  intros HH. unfold buildPrediction, assign_tags. cbn [probAway].
  destruct (grid_closed (poissonPMF lambdaHome) (poissonPMF lambdaAway))
    as [_ [_ [Hw _]]].
  cbv zeta in Hw. rewrite Hw. unfold mixture, away_weight.
  rewrite (sumf_ext _ (fun k => (sumf (poissonPMF lambdaAway) 8
                                 - sumf (poissonPMF lambdaAway) (S k))
                                * poisson k lambdaHome)).
  - ring.
  - intros k _. rewrite poissonPMF_poisson by exact HH. ring.
Qed.

Lemma poissonPMF_pos (lambda : R) (k : nat) : 0 < lambda -> 0 < poissonPMF lambda k.
Proof.
  intros Hl. rewrite poissonPMF_poisson by exact Hl. apply poisson_pos, Hl.
Qed.

(** *** Quantitative bounds on the clamped range

    On rates up to 3.2 the slopes stay away from zero by margins that the
    rounding of the double arithmetic of the program, of the order of
    1e-13 on these percentages, cannot reach. *)

Lemma exp_opp_range (z : R) : z <= 3.2 -> 0.040660319709 <= exp (- z).
Proof.
  intros Hz. pose proof exp_opp_32_lower as H.
  destruct (Rle_lt_or_eq_dec _ _ Hz) as [Hlt|Heq].
  - assert (exp (Ropp 3.2) < exp (- z)) by (apply exp_increasing; lra).
    lra.
  - rewrite Heq. exact H.
Qed.

Lemma poisson_0_7_gap (z : R) :
  0 < z <= 3.2 -> 0.0129 <= poisson 0 z - poisson 7 z.
Proof.
  intros [Hz0 Hz1].
  pose proof (exp_opp_range z Hz1) as HE.
  assert (Hpow : z ^ 7 <= 3.2 ^ 7) by (apply pow_incr; lra).
  assert (Hpos : 0 < z ^ 7) by (apply pow_lt; exact Hz0).
  unfold poisson. fact_lit.
  set (e := exp (- z)) in *. set (t := z ^ 7) in *.
  assert (Ht : 0.3182 <= 1 - t / 5040) by (simpl in Hpow; lra).
  assert (0.040660319709 * 0.3182 <= e * (1 - t / 5040))
    by (apply Rmult_le_compat; lra).
  simpl. lra.
Qed.

Lemma home_slope_lower (q : nat -> R) (z : R) :
  (forall a, 0 < q a) -> 0 < z <= 3.2 ->
  q 0%nat * (poisson 0 z - poisson 7 z)
  <= mixture_slope (home_weight q) 8 z.
Proof.
  intros Hq Hz.
  replace (mixture_slope (home_weight q) 8 z)
    with (q 0%nat * (poisson 0 z - poisson 7 z)
          + q 1%nat * (poisson 1 z - poisson 7 z)
          + q 2%nat * (poisson 2 z - poisson 7 z)
          + q 3%nat * (poisson 3 z - poisson 7 z)
          + q 4%nat * (poisson 4 z - poisson 7 z)
          + q 5%nat * (poisson 5 z - poisson 7 z)
          + q 6%nat * (poisson 6 z - poisson 7 z))
    by (cbv [mixture_slope home_weight sumf poisson_slope]; ring).
  assert (Hterm : forall a, (a <= 6)%nat ->
                    0 < q a * (poisson a z - poisson 7 z)).
  { intros a Ha. apply Rmult_lt_0_compat; [apply Hq|].
    pose proof (poisson_7_least a z Ha Hz). lra. }
  pose proof (Hterm 1%nat ltac:(lia)).
  pose proof (Hterm 2%nat ltac:(lia)). pose proof (Hterm 3%nat ltac:(lia)).
  pose proof (Hterm 4%nat ltac:(lia)). pose proof (Hterm 5%nat ltac:(lia)).
  pose proof (Hterm 6%nat ltac:(lia)). lra.
Qed.

Lemma away_slope_upper (q : nat -> R) (z : R) :
  (forall a, 0 < q a) -> 0 < z ->
  mixture_slope (away_weight q) 8 z <= - (q 1%nat * poisson 0 z).
Proof.
  intros Hq Hz.
  replace (mixture_slope (away_weight q) 8 z)
    with (- (q 1%nat * poisson 0 z + q 2%nat * poisson 1 z
             + q 3%nat * poisson 2 z + q 4%nat * poisson 3 z
             + q 5%nat * poisson 4 z + q 6%nat * poisson 5 z
             + q 7%nat * poisson 6 z))
    by (cbv [mixture_slope away_weight sumf poisson_slope]; ring).
  assert (Hterm : forall a k, 0 < q a * poisson k z).
  { intros a k. apply Rmult_lt_0_compat; [apply Hq|apply poisson_pos, Hz]. }
  pose proof (Hterm 2%nat 1%nat).
  pose proof (Hterm 3%nat 2%nat). pose proof (Hterm 4%nat 3%nat).
  pose proof (Hterm 5%nat 4%nat). pose proof (Hterm 6%nat 5%nat).
  pose proof (Hterm 7%nat 6%nat). lra.
Qed.

(** The probabilities of no goal and of one goal at a rate of the clamped
    range. *)
Lemma poissonPMF_0_1_lower (lambda : R) :
  0.4 <= lambda <= 3.2 ->
  0.040660319709 <= poissonPMF lambda 0 /\ 0.016264 <= poissonPMF lambda 1.
Proof.
  intros [H0 H1].
  pose proof (exp_opp_range lambda H1) as HE.
  rewrite !poissonPMF_poisson by lra. unfold poisson. fact_lit.
  set (e := exp (- lambda)) in *.
  assert (0.040660319709 * 0.4 <= e * lambda)
    by (apply Rmult_le_compat; lra).
  simpl. split; lra.
Qed.

(** Within the clamped range, a home rate higher by [d] raises [probHome]
    by at least [0.05 * d] percentage points. *)
Lemma probHome_gain (lambdaAway l1 l2 : R) (ctx ctx' : MatchContext) :
  0.4 <= lambdaAway <= 3.2 -> 0 < l1 -> l1 < l2 -> l2 <= 3.2 ->
  probHome (buildPrediction l1 lambdaAway ctx) + 0.05 * (l2 - l1)
  <= probHome (buildPrediction l2 lambdaAway ctx').
Proof.
  intros HA H1 H12 H2.
  assert (Hq : forall a, 0 < poissonPMF lambdaAway a)
    by (intros a; apply poissonPMF_pos; lra).
  rewrite !probHome_mixture by lra.
  destruct (mixture_mean_value (home_weight (poissonPMF lambdaAway)) 8 l1 l2 H12)
    as [z [E [Hz1 Hz2]]].
  pose proof (home_slope_lower _ z Hq ltac:(lra)) as Hs.
  pose proof (poisson_0_7_gap z ltac:(lra)) as Hgap.
  destruct (poissonPMF_0_1_lower lambdaAway HA) as [Hq0 _].
  assert (Hprod : 0.040660319709 * 0.0129
                  <= poissonPMF lambdaAway 0 * (poisson 0 z - poisson 7 z))
    by (apply Rmult_le_compat; lra).
  assert (0.0005 * (l2 - l1)
          <= mixture_slope (home_weight (poissonPMF lambdaAway)) 8 z * (l2 - l1))
    by (apply Rmult_le_compat_r; lra).
  lra.
Qed.

(** Within the clamped range, a home rate higher by [d] lowers [probAway]
    by at least [0.05 * d] percentage points. *)
Lemma probAway_loss (lambdaAway l1 l2 : R) (ctx ctx' : MatchContext) :
  0.4 <= lambdaAway <= 3.2 -> 0 < l1 -> l1 < l2 -> l2 <= 3.2 ->
  probAway (buildPrediction l2 lambdaAway ctx) + 0.05 * (l2 - l1)
  <= probAway (buildPrediction l1 lambdaAway ctx').
Proof.
  intros HA H1 H12 H2.
  assert (Hq : forall a, 0 < poissonPMF lambdaAway a)
    by (intros a; apply poissonPMF_pos; lra).
  rewrite !probAway_mixture by lra.
  destruct (mixture_mean_value (away_weight (poissonPMF lambdaAway)) 8 l1 l2 H12)
    as [z [E [Hz1 Hz2]]].
  pose proof (away_slope_upper _ z Hq ltac:(lra)) as Hs.
  pose proof (exp_opp_range z ltac:(lra)) as HE.
  destruct (poissonPMF_0_1_lower lambdaAway HA) as [_ Hq1].
  assert (HP0 : poisson 0 z = exp (- z)).
  { unfold poisson. fact_lit. simpl. field. }
  assert (Hprod : 0.016264 * 0.040660319709
                  <= poissonPMF lambdaAway 1 * poisson 0 z).
  { rewrite HP0. apply Rmult_le_compat; lra. }
  assert (0.0005 * (l2 - l1)
          <= - mixture_slope (away_weight (poissonPMF lambdaAway)) 8 z * (l2 - l1))
    by (apply Rmult_le_compat_r; lra).
  lra.
Qed.

(** C6 (amended): on the range the rate estimator is clamped to, rates
    from 0.4 to 3.2, and for a fixed away rate, a home rate that is higher
    by at least 0.01 raises [probHome] and lowers [probAway], each by at
    least 0.0005 percentage points.  The bounds are those of the formulas
    the code evaluates; they leave a margin of many orders of magnitude
    over the rounding of its double arithmetic, which is why the rates
    have to differ by a definite amount: between two rates that are close
    enough the computed percentages need not differ at all. *)
Theorem home_rate_margin (lambdaAway l1 l2 : R) (ctx : MatchContext) :
  0.4 <= lambdaAway <= 3.2 -> 0.4 <= l1 -> l1 + 0.01 <= l2 -> l2 <= 3.2 ->
  probHome (buildPrediction l1 lambdaAway ctx) + 0.0005
  <= probHome (buildPrediction l2 lambdaAway ctx) /\
  probAway (buildPrediction l2 lambdaAway ctx) + 0.0005
  <= probAway (buildPrediction l1 lambdaAway ctx) /\
  probHome (buildPrediction l1 lambdaAway ctx)
  < probHome (buildPrediction l2 lambdaAway ctx) /\
  probAway (buildPrediction l2 lambdaAway ctx)
  <= probAway (buildPrediction l1 lambdaAway ctx).
Proof.
  intros HA H1 H12 H2.
  pose proof (probHome_gain lambdaAway l1 l2 ctx ctx HA ltac:(lra) ltac:(lra) H2)
    as Hup.
  pose proof (probAway_loss lambdaAway l1 l2 ctx ctx HA ltac:(lra) ltac:(lra) H2)
    as Hdown.
  repeat split; lra.
Qed.

Lemma home_rate_margin_witness :
  probHome (buildPrediction 1 1 initial_context)
  < probHome (buildPrediction 2 1 initial_context) /\
  probAway (buildPrediction 2 1 initial_context)
  <= probAway (buildPrediction 1 1 initial_context).
Proof.
  destruct (home_rate_margin 1 1 2 initial_context)
    as [_ [_ [Hhome Haway]]]; [lra|lra|lra|lra|].
  split; [exact Hhome|exact Haway].
Defined.

Lemma exp_INR (n : nat) : exp (INR n) = exp 1 ^ n.
Proof.
  induction n as [|n IH].
  - simpl. apply exp_0.
  - rewrite S_INR, exp_plus, IH. simpl. ring.
Qed.

Lemma exp_opp_1_bounds : / 3 <= exp (Ropp 1) /\ 0 < exp (Ropp 1).
Proof.
  pose proof exp_le_3 as H3. pose proof (exp_pos 1) as H0.
  rewrite exp_Ropp. split.
  - apply Rinv_le_contravar; assumption.
  - apply Rinv_0_lt_compat; exact H0.
Qed.

Lemma exp_opp_30_bound : 0 < exp (Ropp 30) <= / 2 ^ 30.
Proof.
  rewrite exp_Ropp. replace 30 with (INR 30) by (simpl; lra).
  rewrite exp_INR.
  pose proof (exp_ineq1 1 ltac:(lra)) as H2.
  assert (Hpow : 2 ^ 30 <= exp 1 ^ 30) by (apply pow_incr; lra).
  assert (H0 : 0 < 2 ^ 30) by (apply pow_lt; lra).
  split.
  - apply Rinv_0_lt_compat. lra.
  - apply Rinv_le_contravar; assumption.
Qed.

(** C6, as stated, fails: with the away rate at 1, raising the home rate
    from 1 to 30 lowers [probHome], because almost all of the home mass
    then lies above 7 goals, outside the grid. *)
Lemma probHome_not_monotone :
  0 < 1 /\ 1 < 30 /\
  probHome (buildPrediction 30 1 initial_context)
  < probHome (buildPrediction 1 1 initial_context).
Proof.
  split; [lra|]. split; [lra|].
  rewrite !probHome_mixture by lra.
  unfold mixture, home_weight.
  rewrite (sumf_ext (fun k => sumf (poissonPMF 1) k * poisson k 30)
                    (fun k => sumf (fun a => poisson a 1) k * poisson k 30)).
  2:{ intros k _. f_equal. apply sumf_ext. intros a _.
      apply poissonPMF_poisson. lra. }
  rewrite (sumf_ext (fun k => sumf (poissonPMF 1) k * poisson k 1)
                    (fun k => sumf (fun a => poisson a 1) k * poisson k 1)).
  2:{ intros k _. f_equal. apply sumf_ext. intros a _.
      apply poissonPMF_poisson. lra. }
  cbv [sumf]. unfold poisson. rewrite !pow1. fact_lit.
  destruct exp_opp_1_bounds as [Hu3 Hu0].
  destruct exp_opp_30_bound as [Hv0 Hv].
  set (u := exp (Ropp 1)) in *. set (v := exp (Ropp 30)) in *.
  assert (Huv : u * v <= u * / 2 ^ 30)
    by (apply Rmult_le_compat_l; lra).
  assert (Huu : u * / 3 <= u * u)
    by (apply Rmult_le_compat_l; lra).
  lra.
Qed.

(** ** Sample evaluations *)

Example factorial_values :
  factorial 0 = 1 /\ factorial 1 = 1 /\ factorial 4 = 24 /\ factorial 7 = 5040.
Proof. unfold factorial. simpl. repeat split; lra. Qed.

(** A non-positive rate puts the whole mass on 0 goals. *)
Example poissonPMF_degenerate :
  poissonPMF 0 0 = 1 /\ poissonPMF 0 3 = 0 /\ poissonPMF (-2) 0 = 1.
Proof. unfold poissonPMF. cbn [Nat.eqb]. decide_R; repeat split; reflexivity. Qed.

Example clamp_values :
  clamp 5 0.4 3.2 = 3.2 /\ clamp 0.1 0.4 3.2 = 0.4 /\ clamp 1 0.4 3.2 = 1.
Proof. unfold clamp. eval_minmax. repeat split; reflexivity. Qed.

(** One recent match won 2-1. *)
Example computeFormFactor_one_match :
  computeFormFactor (Some [mkSample true 2 1]) = mkFormFactor (151 / 130) 1.09 1.
Proof.
  unfold computeFormFactor. cbn [fold_left List.length goalsFor goalsAgainst INR].
  replace ((0 + 2) / 1) with 2 by lra. replace ((0 + 1) / 1) with 1 by lra.
  rewrite (Rmax_left 1 0.3) by lra.
  unfold clamp.
  rewrite (Rmin_right 1.4 (0.7 + 0.3 * (2 / 1.3))) by lra.
  rewrite (Rmin_right 1.4 (0.7 + 0.3 * (1.3 / 1))) by lra.
  rewrite !Rmax_right by lra.
  f_equal; lra.
Qed.

Example getDataFlag_values :
  getDataFlag (mkSignals 1 1 1) = "GOOD_DATA"%string /\
  getDataFlag (mkSignals 0.7 0.5 0.3) = "OK_DATA"%string /\
  getDataFlag (mkSignals 0.3 0.3 0.3) = "LOW_DATA"%string.
Proof.
  unfold getDataFlag. cbn [sig_dataQuality sig_sampleSize sig_recentFactor].
  eval_R; repeat split; reflexivity.
Qed.

(** Two teams with the same season at both venues: the rates differ only by
    the home advantage, 1.25 * 1.1 against 1.25 * 0.95. *)
Example fixtureRates_symmetric :
  @fixtureRates symmetric_lookup (mkCompetition 39 2024)
     (mkFixture (Some 1%nat) (Some 2%nat))
  = (1.375, 1.1875, mkContext 20 20 0 0 1 1 0.3).
Proof.
  unfold fixtureRates, symmetric_lookup.
  cbn [id_truthy home_id away_id getTeamStats getTeamRecentForm promise_all4
       played_home played_away played_total goals_for_home goals_for_away
       goals_against_home goals_against_away computeFormFactor
       attack defense matches Nat.leb andb INR].
  unfold opt_or0. rewrite !or0_id. unfold truthy.
  destruct (Req_dec_T 10 0) as [E|_]; [lra|].
  replace ((13 / 10 + 12 / 10) / 2 * 1.1) with 1.375 by lra.
  replace ((13 / 10 + 12 / 10) / 2 * 0.95) with 1.1875 by lra.
  replace ((20 + 20) / 40) with 1 by lra.
  unfold clamp.
  rewrite (Rmin_right 3.2 1.375), (Rmin_right 3.2 1.1875) by lra.
  rewrite (Rmax_right 0.4 1.375), (Rmax_right 0.4 1.1875) by lra.
  replace (1.375 * (1 * 1)) with 1.375 by lra.
  replace (1.1875 * (1 * 1)) with 1.1875 by lra.
  rewrite (Rmin_right 3.2 1.375), (Rmin_right 3.2 1.1875) by lra.
  rewrite (Rmax_right 0.4 1.375), (Rmax_right 0.4 1.1875) by lra.
  rewrite (Rmin_left 1 1) by lra.
  unfold Rgeb. destruct (Rge_dec 20 5) as [_|N]; [|lra].
  reflexivity.
Qed.

(** The degraded prediction carries the label of the lowest confidence and
    the flag of the poorest data. *)
Example degraded_labels :
  label (real (confidenceDetails (buildPrediction 1.35 1.25 initial_context)))
  = "scăzută"%string /\
  dataFlag (buildPrediction 1.35 1.25 initial_context) = Some "LOW_DATA"%string.
Proof.
  split.
  - unfold buildPrediction, assign_tags. cbn [confidenceDetails real].
    unfold buildRealConfidence. rewrite clarity_NaN. reflexivity.
  - unfold buildPrediction, assign_tags. cbn [dataFlag].
    unfold getDataFlag, initial_context.
    cbn [sig_dataQuality sig_sampleSize sig_recentFactor
         dataQuality sampleSize recentFactor].
    eval_R; reflexivity.
Qed.

(** * Further properties of the engine *)

(** ** Numeric helpers *)

(** X1: up to the argument 22 the loop of [factorial] computes the
    factorial, with the usual recurrence; 5040 at 7, the largest argument
    the scoreline model passes.  Up to 22 every product of the loop is an
    integer a double holds exactly, so the statement is about the values
    the program computes; from 23 on the doubles are rounded. *)
Theorem factorial_is_fact (n : nat) :
  (n <= 22)%nat ->
  factorial n = INR (fact n) /\
  ((n < 22)%nat -> factorial (S n) = INR (S n) * factorial n) /\
  ((n <= 7)%nat -> 1 <= factorial n <= 5040).
Proof.
  intros Hn.
  split; [apply factorial_fact|]. split.
  - intros _. rewrite !factorial_fact, <- mult_INR. reflexivity.
  - intros H7. rewrite factorial_fact.
    destruct n as [|[|[|[|[|[|[|[|n]]]]]]]]; [| | | | | | | |lia];
      fact_lit; lra.
Qed.

Lemma factorial_is_fact_witness : factorial 7 = INR (fact 7).
Proof. apply (factorial_is_fact 7). lia. Defined.

Lemma factorial_calls_sound (ns : list nat) (factCache : FactCache) :
  cache_sound factCache ->
  fst (factorial_calls factCache ns) = map factorial ns /\
  cache_sound (snd (factorial_calls factCache ns)).
Proof.
  revert factCache. induction ns as [|n rest IH]; intros factCache Hsound.
  - split; [reflexivity|exact Hsound].
  - cbn [factorial_calls map].
    destruct (factorial_cached_value factCache n Hsound) as [Hv Hs].
    destruct (factorial_cached factCache n) as [r c1]. cbn [fst snd] in Hv, Hs.
    destruct (IH c1 Hs) as [Hvs Hss].
    destruct (factorial_calls c1 rest) as [rs c2]. cbn [fst snd] in *.
    split; [rewrite Hv, Hvs; reflexivity|exact Hss].
Qed.

(** X2: the memo table never changes a result: whatever calls are made,
    in whatever order, starting from the empty table, each call answers
    the factorial of its argument. *)
Theorem factorial_memo_transparent (ns : list nat) :
  fst (factorial_calls (fun _ => None) ns) = map factorial ns.
Proof. apply factorial_calls_sound, cache_sound_empty. Qed.

Lemma clamp_bounds (v min max : R) :
  min <= max -> min <= clamp v min max <= max.
Proof.
  intros H. unfold clamp. split.
  - apply Rmax_l.
  - apply Rmax_lub; [exact H|apply Rmin_l].
Qed.

Lemma clamp_inside (v min max : R) :
  min <= v <= max -> clamp v min max = v.
Proof.
  intros [H1 H2]. unfold clamp.
  rewrite (Rmin_right max v) by exact H2. apply Rmax_right. exact H1.
Qed.

Lemma clamp_monotone (v v' min max : R) :
  v <= v' -> clamp v min max <= clamp v' min max.
Proof.
  intros H. unfold clamp.
  apply Rmax_lub.
  - apply Rmax_l.
  - apply Rle_trans with (Rmin max v'); [|apply Rmax_r].
    apply Rmin_glb; [apply Rmin_l|].
    apply Rle_trans with v; [apply Rmin_r|exact H].
Qed.

(** X3: for a proper range, [clamp] lands in the range, leaves a value of
    the range alone, is idempotent and preserves order. *)
Theorem clamp_range (v v' min max : R) :
  min <= max ->
  min <= clamp v min max <= max /\
  (min <= v <= max -> clamp v min max = v) /\
  clamp (clamp v min max) min max = clamp v min max /\
  (v <= v' -> clamp v min max <= clamp v' min max).
Proof.
  intros H. split; [apply clamp_bounds, H|]. split; [apply clamp_inside|].
  split; [apply clamp_inside, clamp_bounds, H|apply clamp_monotone].
Qed.

Lemma clamp_range_witness : 0.4 <= clamp 5 0.4 3.2 <= 3.2.
Proof. apply (clamp_range 5 5 0.4 3.2). lra. Defined.

(** ** The Poisson terms *)

Lemma series_term_below_sum (An : nat -> R) (k : nat) :
  (forall i, 0 < An i) -> An k <= sum_f_R0 An k.
Proof.
  intros Hpos. destruct k as [|k]; cbn [sum_f_R0]; [lra|].
  pose proof (cond_pos_sum An k (fun i => Rlt_le _ _ (Hpos i))). lra.
Qed.

Lemma poisson_below_one (k : nat) (x : R) : 0 < x -> poisson k x < 1.
Proof.
  intros Hx. unfold poisson.
  set (An := fun i : nat => / INR (fact i) * x ^ i).
  assert (Hterm : forall i, 0 < An i).
  { intros i. unfold An. apply Rmult_lt_0_compat.
    - apply Rinv_0_lt_compat, INR_fact_lt_0.
    - apply pow_lt; exact Hx. }
  pose proof (series_term_below_sum An k Hterm) as Hle.
  pose proof (exp_above_partial_sum x k Hx) as Hlt. fold An in Hlt.
  pose proof (exp_pos x) as Hpos.
  replace (exp (- x) * x ^ k / INR (fact k)) with (An k * / exp x).
  2:{ unfold An. rewrite exp_Ropp. field.
      split; [lra|apply INR_fact_neq_0]. }
  apply (Rmult_lt_reg_r (exp x)); [exact Hpos|].
  rewrite Rmult_assoc, Rinv_l by lra. lra.
Qed.

(** X4: for a positive rate every value of [poissonPMF] is a probability
    strictly between 0 and 1, and the values for 0 to 7 goals add up to
    less than 1. *)
Theorem poissonPMF_probability (lambda : R) (k : nat) :
  0 < lambda ->
  0 < poissonPMF lambda k < 1 /\
  0 < sumf (poissonPMF lambda) 8 < 1.
Proof.
  intros Hl. split.
  - rewrite poissonPMF_poisson by exact Hl.
    split; [apply poisson_pos, Hl|apply poisson_below_one, Hl].
  - apply (truncated_mass_bounds lambda Hl).
Qed.

Lemma poissonPMF_probability_witness : 0 < poissonPMF 1.35 2 < 1.
Proof. apply (poissonPMF_probability 1.35 2). lra. Defined.

Lemma poissonPMF_point_mass (lambda : R) (k : nat) :
  lambda <= 0 -> poissonPMF lambda k = if (k =? 0)%nat then 1 else 0.
Proof.
  intros Hl. unfold poissonPMF. destruct (Rle_dec lambda 0); [reflexivity|lra].
Qed.

(** The accumulators of the two goal markets in closed form. *)
Lemma grid_markets_closed (p q : nat -> R) :
  let w := grid 7 (map p (seq 0 8)) (map q (seq 0 8)) in
  ov w = sumf p 8 * sumf q 8
         - (p 0%nat * (q 0%nat + q 1%nat + q 2%nat)
            + p 1%nat * (q 0%nat + q 1%nat) + p 2%nat * q 0%nat) /\
  b w = (sumf p 8 - p 0%nat) * (sumf q 8 - q 0%nat).
Proof.
  cbv [grid fold_left seq cell nth map Nat.ltb Nat.leb Nat.eqb Nat.add andb
       wH wD wA ov b sumf].
  split; ring.
Qed.

(** X5: a non-positive rate is the point mass at 0 goals.  A side with
    such a rate never wins and never scores; with both rates non-positive
    the forecast is a certain goalless draw. *)
Theorem degenerate_rates (lambdaHome lambdaAway : R) (ctx : MatchContext) :
  lambdaHome <= 0 ->
  (forall k, poissonPMF lambdaHome k = if (k =? 0)%nat then 1 else 0) /\
  probHome (buildPrediction lambdaHome lambdaAway ctx) = 0 /\
  yes (btts (buildPrediction lambdaHome lambdaAway ctx)) = 0 /\
  (lambdaAway <= 0 ->
   probDraw (buildPrediction lambdaHome lambdaAway ctx) = 100 /\
   probAway (buildPrediction lambdaHome lambdaAway ctx) = 0 /\
   over25 (goals (buildPrediction lambdaHome lambdaAway ctx)) = 0 /\
   under25 (goals (buildPrediction lambdaHome lambdaAway ctx)) = 100).
Proof.
  intros HH.
  split; [intros k; apply poissonPMF_point_mass, HH|].
  unfold buildPrediction, assign_tags.
  cbn [probHome probDraw probAway goals btts over25 under25 yes].
  destruct (grid_closed (poissonPMF lambdaHome) (poissonPMF lambdaAway))
    as [EH [ED [EA _]]].
  destruct (grid_markets_closed (poissonPMF lambdaHome) (poissonPMF lambdaAway))
    as [EO EB].
  cbv zeta in EH, ED, EA, EO, EB. rewrite EH, EB.
  cbv [sumf]. rewrite !(poissonPMF_point_mass lambdaHome) by exact HH.
  cbn [Nat.eqb].
  split; [ring|]. split; [ring|].
  intros HA. rewrite ED, EA, EO. cbv [sumf].
  rewrite !(poissonPMF_point_mass lambdaHome) by exact HH.
  rewrite !(poissonPMF_point_mass lambdaAway) by exact HA.
  cbn [Nat.eqb]. repeat split; ring.
Qed.

Lemma degenerate_rates_witness :
  probDraw (buildPrediction 0 0 initial_context) = 100.
Proof.
  destruct (degenerate_rates 0 0 initial_context) as [_ [_ [_ H]]]; [lra|].
  apply H. lra.
Defined.

(** ** Form factors *)

Lemma form_totals (l : list FormSample) (gf ga : R) :
  fold_left (fun '(gf, ga) m => (gf + goalsFor m, ga + goalsAgainst m)) l (gf, ga)
  = (gf + total_goalsFor l, ga + total_goalsAgainst l).
Proof.
  revert gf ga. induction l as [|m l IH]; intros gf ga; simpl.
  - f_equal; ring.
  - rewrite IH. f_equal; ring.
Qed.

(** The factors of a non-empty sample from its totals. *)
Lemma computeFormFactor_totals (l : list FormSample) :
  l <> [] ->
  computeFormFactor (Some l)
  = mkFormFactor
      (clamp (0.7 + 0.3 * (total_goalsFor l / INR (List.length l) / 1.3)) 0.6 1.4)
      (clamp (0.7 + 0.3 * (1.3 / Rmax (total_goalsAgainst l / INR (List.length l)) 0.3))
             0.6 1.4)
      (List.length l).
Proof.
  intros Hne. destruct l as [|m l]; [congruence|].
  unfold computeFormFactor. rewrite form_totals.
  rewrite !Rplus_0_l. reflexivity.
Qed.

Lemma form_factor_band (lst : option (list FormSample)) :
  0.6 <= attack (computeFormFactor lst) <= 1.4 /\
  0.6 <= defense (computeFormFactor lst) <= 1.4.
Proof.
  destruct lst as [[|m l]|]; try (simpl; lra).
  rewrite computeFormFactor_totals by discriminate. cbn [attack defense].
  split; apply clamp_bounds; lra.
Qed.

(** X6: whatever the recent matches are, both form factors lie in the band
    0.6 to 1.4, the defense factor is above 0.7, and the reported number
    of matches is the length of the sample (0 for [null]). *)
Theorem computeFormFactor_range (lst : option (list FormSample)) :
  0.6 <= attack (computeFormFactor lst) <= 1.4 /\
  0.7 < defense (computeFormFactor lst) <= 1.4 /\
  matches (computeFormFactor lst)
  = match lst with Some l => List.length l | None => 0%nat end.
Proof.
  destruct lst as [[|m l]|].
  - simpl. repeat split; lra.
  - rewrite computeFormFactor_totals by discriminate.
    cbn [attack defense matches].
    set (avgGA := total_goalsAgainst (m :: l) / INR (List.length (m :: l))).
    split; [apply clamp_bounds; lra|]. split; [|reflexivity].
    split; [|apply clamp_bounds; lra].
    assert (Hmax : 0.3 <= Rmax avgGA 0.3) by apply Rmax_r.
    assert (Hpos : 0 < 1.3 / Rmax avgGA 0.3).
    { apply Rdiv_lt_0_compat; lra. }
    unfold clamp.
    destruct (Rle_or_lt 1.4 (0.7 + 0.3 * (1.3 / Rmax avgGA 0.3))) as [Hc|Hc].
    + rewrite Rmin_left by exact Hc. rewrite Rmax_right by lra. lra.
    + rewrite Rmin_right by lra. rewrite Rmax_right by lra. lra.
  - simpl. repeat split; lra.
Qed.

(** X7: among samples of the same positive length, scoring more never
    lowers the attack factor and conceding more never raises the defense
    factor. *)
Theorem computeFormFactor_monotone (l1 l2 : list FormSample) :
  l1 <> [] -> List.length l1 = List.length l2 ->
  (total_goalsFor l1 <= total_goalsFor l2 ->
   attack (computeFormFactor (Some l1)) <= attack (computeFormFactor (Some l2))) /\
  (total_goalsAgainst l1 <= total_goalsAgainst l2 ->
   defense (computeFormFactor (Some l2)) <= defense (computeFormFactor (Some l1))).
Proof.
  intros Hne Hlen.
  assert (Hne2 : l2 <> []).
  { destruct l2; [|discriminate]. destruct l1; [congruence|discriminate]. }
  rewrite !computeFormFactor_totals by assumption.
  cbn [attack defense]. rewrite <- Hlen.
  assert (Hn : 0 < INR (List.length l1)).
  { apply lt_0_INR. destruct l1; [congruence|simpl; lia]. }
  assert (Hinv : 0 < / INR (List.length l1)) by (apply Rinv_0_lt_compat, Hn).
  split; intros Hle; apply clamp_monotone.
  - unfold Rdiv.
    assert (total_goalsFor l1 * / INR (List.length l1)
            <= total_goalsFor l2 * / INR (List.length l1))
      by (apply Rmult_le_compat_r; lra).
    lra.
  - set (m1 := Rmax (total_goalsAgainst l1 / INR (List.length l1)) 0.3).
    set (m2 := Rmax (total_goalsAgainst l2 / INR (List.length l1)) 0.3).
    assert (H1 : 0.3 <= m1) by apply Rmax_r.
    assert (H12 : m1 <= m2).
    { unfold m1, m2. apply Rle_max_compat_r. unfold Rdiv.
      apply Rmult_le_compat_r; lra. }
    assert (Hinv12 : / m2 <= / m1) by (apply Rinv_le_contravar; lra).
    unfold Rdiv. lra.
Qed.

Lemma computeFormFactor_monotone_witness :
  attack (computeFormFactor (Some [mkSample true 0 1]))
  <= attack (computeFormFactor (Some [mkSample false 2 1])).
Proof.
  destruct (computeFormFactor_monotone
              [mkSample true 0 1] [mkSample false 2 1]) as [H _].
  - discriminate.
  - reflexivity.
  - apply H. simpl. lra.
Defined.

(** X8: landmarks of the form factors of a non-empty sample: a team at the
    baseline of 1.3 goals scored and conceded per match gets the neutral
    factors 1 and 1; a team that did not score gets the attack factor 0.7;
    a team that conceded at most 0.5 goals per match gets the largest
    defense factor, 1.4. *)
Theorem computeFormFactor_landmarks (l : list FormSample) :
  l <> [] ->
  (total_goalsFor l = 1.3 * INR (List.length l) ->
   attack (computeFormFactor (Some l)) = 1) /\
  (total_goalsAgainst l = 1.3 * INR (List.length l) ->
   defense (computeFormFactor (Some l)) = 1) /\
  (total_goalsFor l = 0 -> attack (computeFormFactor (Some l)) = 0.7) /\
  (total_goalsAgainst l <= 0.5 * INR (List.length l) ->
   defense (computeFormFactor (Some l)) = 1.4).
Proof.
  intros Hne. rewrite computeFormFactor_totals by exact Hne.
  cbn [attack defense].
  assert (Hn : 0 < INR (List.length l)).
  { apply lt_0_INR. destruct l; [congruence|simpl; lia]. }
  repeat split.
  - intros ->. replace (1.3 * INR (List.length l) / INR (List.length l) / 1.3)
      with 1 by (field; lra).
    rewrite clamp_inside by lra. lra.
  - intros ->. replace (1.3 * INR (List.length l) / INR (List.length l))
      with 1.3 by (field; lra).
    rewrite Rmax_left by lra.
    replace (0.7 + 0.3 * (1.3 / 1.3)) with 1 by lra.
    apply clamp_inside. lra.
  - intros ->. replace (0 / INR (List.length l) / 1.3) with 0 by (field; lra).
    rewrite clamp_inside by lra. lra.
  - intros Hle.
    set (avgGA := total_goalsAgainst l / INR (List.length l)).
    assert (Havg : avgGA <= 0.5).
    { unfold avgGA. apply (Rmult_le_reg_r (INR (List.length l))); [exact Hn|].
      unfold Rdiv. rewrite Rmult_assoc, Rinv_l by lra. lra. }
    assert (Hm : 0.3 <= Rmax avgGA 0.3 <= 0.5).
    { split; [apply Rmax_r|apply Rmax_lub; lra]. }
    assert (Hinv : / 0.5 <= / Rmax avgGA 0.3)
      by (apply Rinv_le_contravar; lra).
    unfold clamp, Rdiv.
    rewrite Rmin_left by lra. apply Rmax_right. lra.
Qed.

Lemma computeFormFactor_landmarks_witness :
  attack (computeFormFactor (Some [mkSample true 0 3])) = 0.7.
Proof.
  destruct (computeFormFactor_landmarks [mkSample true 0 3]) as [_ [_ [H _]]].
  - discriminate.
  - apply H. simpl. lra.
Defined.

(** ** The scoreline model *)

Lemma grid_positive (p q : nat -> R) :
  (forall k, 0 < p k) -> (forall k, 0 < q k) ->
  let w := grid 7 (map p (seq 0 8)) (map q (seq 0 8)) in
  0 < wH w /\ 0 < wD w /\ 0 < wA w /\ 0 < ov w /\ 0 < b w.
Proof.
  intros Hp Hq.
  cbv [grid fold_left seq cell nth map Nat.ltb Nat.leb Nat.eqb Nat.add andb
       wH wD wA ov b].
  repeat split; pos_sum Hp Hq.
Qed.

Lemma grid_below_total (p q : nat -> R) :
  (forall k, 0 < p k) -> (forall k, 0 < q k) ->
  let w := grid 7 (map p (seq 0 8)) (map q (seq 0 8)) in
  wH w < sumf p 8 * sumf q 8 /\ wD w < sumf p 8 * sumf q 8 /\
  wA w < sumf p 8 * sumf q 8 /\ ov w < sumf p 8 * sumf q 8 /\
  b w < sumf p 8 * sumf q 8.
Proof.
  intros Hp Hq.
  destruct (grid_positive p q Hp Hq) as [PH [PD [PA _]]].
  destruct (grid_closed p q) as [_ [_ [_ Hsum]]].
  destruct (grid_markets_closed p q) as [EO EB].
  cbv zeta in *.
  set (w := grid 7 (map p (seq 0 8)) (map q (seq 0 8))) in *.
  assert (HP : 0 < sumf p 8 - p 0%nat).
  { cbv [sumf]. pose proof (Hp 1%nat). pose proof (Hp 2%nat).
    pose proof (Hp 3%nat). pose proof (Hp 4%nat). pose proof (Hp 5%nat).
    pose proof (Hp 6%nat). pose proof (Hp 7%nat). lra. }
  assert (HQ : 0 < sumf q 8 - q 0%nat).
  { cbv [sumf]. pose proof (Hq 1%nat). pose proof (Hq 2%nat).
    pose proof (Hq 3%nat). pose proof (Hq 4%nat). pose proof (Hq 5%nat).
    pose proof (Hq 6%nat). pose proof (Hq 7%nat). lra. }
  repeat split; try lra.
  - rewrite EO.
    pose proof (Rmult_lt_0_compat _ _ (Hp 0%nat) (Hq 0%nat)).
    pose proof (Rmult_lt_0_compat _ _ (Hp 0%nat) (Hq 1%nat)).
    pose proof (Rmult_lt_0_compat _ _ (Hp 0%nat) (Hq 2%nat)).
    pose proof (Rmult_lt_0_compat _ _ (Hp 1%nat) (Hq 0%nat)).
    pose proof (Rmult_lt_0_compat _ _ (Hp 1%nat) (Hq 1%nat)).
    pose proof (Rmult_lt_0_compat _ _ (Hp 2%nat) (Hq 0%nat)).
    lra.
  - rewrite EB.
    pose proof (Hp 0%nat) as Hp0. pose proof (Hq 0%nat) as Hq0.
    set (P := sumf p 8) in *. set (Q := sumf q 8) in *.
    assert (0 < p 0%nat * Q) by (apply Rmult_lt_0_compat; lra).
    assert (0 < (P - p 0%nat) * q 0%nat) by (apply Rmult_lt_0_compat; lra).
    lra.
Qed.

(** X9: for positive rates every reported percentage (the three outcomes,
    over and under 2.5 goals, both teams to score and its complement) lies
    strictly between 0 and 100. *)
Theorem percentages_in_range (lambdaHome lambdaAway : R) (ctx : MatchContext) :
  0 < lambdaHome -> 0 < lambdaAway ->
  let p := buildPrediction lambdaHome lambdaAway ctx in
  0 < probHome p < 100 /\ 0 < probDraw p < 100 /\ 0 < probAway p < 100 /\
  0 < over25 (goals p) < 100 /\ 0 < under25 (goals p) < 100 /\
  0 < yes (btts p) < 100 /\ 0 < no (btts p) < 100.
Proof.
  intros HH HA.
  assert (Hp : forall k, 0 < poissonPMF lambdaHome k)
    by (intros k; apply poissonPMF_pos, HH).
  assert (Hq : forall k, 0 < poissonPMF lambdaAway k)
    by (intros k; apply poissonPMF_pos, HA).
  destruct (grid_positive _ _ Hp Hq) as [PH [PD [PA [PO PB]]]].
  destruct (grid_below_total _ _ Hp Hq) as [LH [LD [LA [LO LB]]]].
  pose proof (truncated_mass_bounds lambdaHome HH) as [M1 M2].
  pose proof (truncated_mass_bounds lambdaAway HA) as [M3 M4].
  unfold truncated_mass in *.
  assert (Htot : sumf (poissonPMF lambdaHome) 8 * sumf (poissonPMF lambdaAway) 8
                 < 1 * 1) by (apply Rmult_le_0_lt_compat; lra).
  cbv zeta in *. unfold buildPrediction, assign_tags.
  cbn [probHome probDraw probAway goals btts over25 under25 yes no].
  repeat split; lra.
Qed.

Lemma percentages_in_range_witness :
  0 < probDraw (buildPrediction 1.35 1.25 initial_context) < 100.
Proof.
  destruct (percentages_in_range 1.35 1.25 initial_context) as [_ [H _]];
    [lra|lra|exact H].
Defined.

Lemma grid_swap (p q : nat -> R) :
  let w := grid 7 (map p (seq 0 8)) (map q (seq 0 8)) in
  let w' := grid 7 (map q (seq 0 8)) (map p (seq 0 8)) in
  wH w = wA w' /\ wD w = wD w' /\ wA w = wH w' /\ ov w = ov w' /\ b w = b w'.
Proof.
  cbv [grid fold_left seq cell nth map Nat.ltb Nat.leb Nat.eqb Nat.add andb
       wH wD wA ov b].
  repeat split; ring.
Qed.

Lemma mirror_home_away (l1 l2 : R) (ctx ctx' : MatchContext) :
  probHome (buildPrediction l1 l2 ctx) = probAway (buildPrediction l2 l1 ctx') /\
  probAway (buildPrediction l1 l2 ctx) = probHome (buildPrediction l2 l1 ctx').
Proof.
  destruct (grid_swap (poissonPMF l1) (poissonPMF l2)) as [EH [_ [EA _]]].
  cbv zeta in *. unfold buildPrediction, assign_tags.
  cbn [probHome probAway]. rewrite EH, EA. split; reflexivity.
Qed.

(** Within the clamped range the side whose rate is higher by [d] leads
    by at least [0.1 * d] percentage points. *)
Lemma favourite_margin (lo hi : R) (ctx : MatchContext) :
  0.4 <= lo -> lo < hi -> hi <= 3.2 ->
  probAway (buildPrediction hi lo ctx) + 0.1 * (hi - lo)
  <= probHome (buildPrediction hi lo ctx) /\
  probHome (buildPrediction lo hi ctx) + 0.1 * (hi - lo)
  <= probAway (buildPrediction lo hi ctx).
Proof.
  intros H0 Hlt Hhi.
  pose proof (probHome_gain lo lo hi ctx ctx ltac:(lra) ltac:(lra) Hlt Hhi)
    as Hup.
  pose proof (probAway_loss lo lo hi ctx ctx ltac:(lra) ltac:(lra) Hlt Hhi)
    as Hdown.
  destruct (mirror_home_away lo lo ctx ctx) as [Eq _].
  destruct (mirror_home_away lo hi ctx ctx) as [E1 E2].
  split; lra.
Qed.

(** X10: exchanging the two rates mirrors the forecast.  The draw is the
    same number: both runs add the same eight products in the same order.
    The home and away win percentages are exchanged, and the goal markets
    and both teams to score are kept, up to the order in which the cells
    of the grid are added: as formulas the two sides are equal, and on the
    clamped range, where every cell is a product of two numbers between 0
    and 1, the percentages agree within 1e-9. *)
Theorem prediction_mirror (lambdaHome lambdaAway : R) (ctx ctx' : MatchContext) :
  0.4 <= lambdaHome <= 3.2 -> 0.4 <= lambdaAway <= 3.2 ->
  let p := buildPrediction lambdaHome lambdaAway ctx in
  let p' := buildPrediction lambdaAway lambdaHome ctx' in
  probDraw p = probDraw p' /\
  Rabs (probHome p - probAway p') <= 1e-9 /\
  Rabs (probAway p - probHome p') <= 1e-9 /\
  Rabs (over25 (goals p) - over25 (goals p')) <= 1e-9 /\
  Rabs (under25 (goals p) - under25 (goals p')) <= 1e-9 /\
  Rabs (yes (btts p) - yes (btts p')) <= 1e-9 /\
  Rabs (no (btts p) - no (btts p')) <= 1e-9.
Proof.
  intros _ _.
  destruct (grid_swap (poissonPMF lambdaHome) (poissonPMF lambdaAway))
    as [EH [ED [EA [EO EB]]]].
  cbv zeta in *. unfold buildPrediction, assign_tags.
  cbn [probHome probDraw probAway goals btts over25 under25 yes no].
  rewrite EH, ED, EA, EO, EB.
  split; [reflexivity|].
  repeat split;
    match goal with
    | |- Rabs ?x <= _ => replace x with 0 by ring; rewrite Rabs_R0; lra
    end.
Qed.

Lemma prediction_mirror_witness :
  probDraw (buildPrediction 1.35 1.25 initial_context)
  = probDraw (buildPrediction 1.25 1.35 initial_context).
Proof.
  apply (prediction_mirror 1.35 1.25 initial_context initial_context); lra.
Defined.

(** X11: within the clamped range the side with the clearly larger rate is
    the favourite: if the home rate exceeds the away rate by at least 0.01
    (both between 0.4 and 3.2), [probHome] exceeds [probAway] by at least
    0.001 percentage points; with the rates exchanged it is the reverse. *)
Theorem larger_rate_is_favourite (lo hi : R) (ctx : MatchContext) :
  0.4 <= lo -> lo + 0.01 <= hi -> hi <= 3.2 ->
  probAway (buildPrediction hi lo ctx) + 0.001
  <= probHome (buildPrediction hi lo ctx) /\
  probHome (buildPrediction lo hi ctx) + 0.001
  <= probAway (buildPrediction lo hi ctx).
Proof.
  intros H0 Hgap Hhi.
  destruct (favourite_margin lo hi ctx H0 ltac:(lra) Hhi) as [H1 H2].
  split; lra.
Qed.

Lemma larger_rate_is_favourite_witness :
  probAway (buildPrediction 1.375 1.1875 initial_context) + 0.001
  <= probHome (buildPrediction 1.375 1.1875 initial_context).
Proof.
  apply (larger_rate_is_favourite 1.1875 1.375 initial_context); lra.
Defined.

(** X12: the away rate acts on the away side as the home rate does on the
    home side: on the clamped range, for a fixed home rate, an away rate
    that is higher by at least 0.01 lowers [probHome] and raises
    [probAway], each by at least 0.0005 percentage points. *)
Theorem away_rate_monotone (lambdaHome l1 l2 : R) (ctx : MatchContext) :
  0.4 <= lambdaHome <= 3.2 -> 0.4 <= l1 -> l1 + 0.01 <= l2 -> l2 <= 3.2 ->
  probHome (buildPrediction lambdaHome l2 ctx) + 0.0005
  <= probHome (buildPrediction lambdaHome l1 ctx) /\
  probAway (buildPrediction lambdaHome l1 ctx) + 0.0005
  <= probAway (buildPrediction lambdaHome l2 ctx).
Proof.
  intros HH H1 H12 H2.
  destruct (mirror_home_away lambdaHome l1 ctx ctx) as [E1 E2].
  destruct (mirror_home_away lambdaHome l2 ctx ctx) as [E3 E4].
  rewrite E1, E2, E3, E4.
  pose proof (probHome_gain lambdaHome l1 l2 ctx ctx HH ltac:(lra) ltac:(lra) H2).
  pose proof (probAway_loss lambdaHome l1 l2 ctx ctx HH ltac:(lra) ltac:(lra) H2).
  split; lra.
Qed.

Lemma away_rate_monotone_witness :
  probHome (buildPrediction 1 2 initial_context) + 0.0005
  <= probHome (buildPrediction 1 1 initial_context).
Proof.
  apply (away_rate_monotone 1 1 2 initial_context); lra.
Defined.

(** ** The orchestrator *)

(** The context built when all data is there. *)
Lemma full_data_context (lookup : StatsLookup) (comp : Competition)
    (f : Fixture) (stH stA : TeamStats) (rH rA : option (list FormSample)) :
  full_data comp f stH stA rH rA ->
  context_of comp f
  = mkContext (opt_or0 (played_total stH)) (opt_or0 (played_total stA))
      (INR (matches (computeFormFactor rH)))
      (INR (matches (computeFormFactor rA)))
      (quality_signal (opt_or0 (played_total stH)) (opt_or0 (played_total stA)))
      (sample_signal (opt_or0 (played_total stH)) (opt_or0 (played_total stA)))
      (recent_signal (matches (computeFormFactor rH))
                     (matches (computeFormFactor rA))).
Proof.
  intros [home [away [Hh [Ha [HsH [HsA [HrH HrA]]]]]]].
  unfold context_of, fixtureRates.
  rewrite Hh, Ha, HsH, HsA, HrH, HrA. reflexivity.
Qed.

(** The rates computed when all data is there. *)
Lemma full_data_rates (lookup : StatsLookup) (comp : Competition)
    (f : Fixture) (stH stA : TeamStats) (rH rA : option (list FormSample)) :
  full_data comp f stH stA rH rA ->
  let hP := opt_or0 (played_home stH) in
  let aP := opt_or0 (played_away stA) in
  let hAvgF := if truthy hP then opt_or0 (goals_for_home stH) / hP else 1.4 in
  let hAvgA := if truthy hP then opt_or0 (goals_against_home stH) / hP else 1.2 in
  let aAvgF := if truthy aP then opt_or0 (goals_for_away stA) / aP else 1.3 in
  let aAvgA := if truthy aP then opt_or0 (goals_against_away stA) / aP else 1.2 in
  let fH := computeFormFactor rH in
  let fA := computeFormFactor rA in
  rate_home comp f
  = clamp (clamp ((hAvgF + aAvgA) / 2 * 1.1) 0.4 3.2 * (attack fH * defense fA))
          0.4 3.2 /\
  rate_away comp f
  = clamp (clamp ((aAvgF + hAvgA) / 2 * 0.95) 0.4 3.2 * (attack fA * defense fH))
          0.4 3.2.
Proof.
  intros [home [away [Hh [Ha [HsH [HsA [HrH HrA]]]]]]].
  unfold rate_home, rate_away, fixtureRates.
  rewrite Hh, Ha, HsH, HsA, HrH, HrA. split; reflexivity.
Qed.

Lemma fixtureRates_cases (lookup : StatsLookup) (comp : Competition) (f : Fixture) :
  fixtureRates comp f = (1.35, 1.25, initial_context) \/
  exists stH stA rH rA, full_data comp f stH stA rH rA.
Proof.
  unfold fixtureRates, full_data.
  destruct (id_truthy (home_id f)) as [home|] eqn:Hh; [|left; reflexivity].
  destruct (id_truthy (away_id f)) as [away|] eqn:Ha; [|left; reflexivity].
  destruct (promise_all4 _ _ _ _) as [[[[stH stA] rH] rA]|m] eqn:Hall;
    [|left; reflexivity].
  apply promise_all4_resolved in Hall. destruct Hall as [EH [EA [ErH ErA]]].
  destruct stH as [stH|]; [|left; reflexivity].
  destruct stA as [stA|]; [|left; reflexivity].
  right. exists stH, stA, rH, rA, home, away. repeat split; assumption.
Qed.

Lemma fixtureRates_rates_range (lookup : StatsLookup) (comp : Competition)
    (f : Fixture) :
  0.4 <= rate_home comp f <= 3.2 /\ 0.4 <= rate_away comp f <= 3.2.
Proof.
  destruct (fixtureRates_cases lookup comp f)
    as [E|[stH [stA [rH [rA Hfull]]]]].
  - unfold rate_home, rate_away. rewrite E. cbn [fst snd]. lra.
  - destruct (full_data_rates lookup comp f stH stA rH rA Hfull) as [EH EA].
    cbv zeta in EH, EA. rewrite EH, EA.
    split; apply clamp_bounds; lra.
Qed.

Lemma quality_signal_values (hT aT : R) :
  quality_signal hT aT = 1 \/ quality_signal hT aT = 0.7 \/
  quality_signal hT aT = 0.4.
Proof.
  unfold quality_signal.
  destruct (Rgeb hT 5 && Rgeb aT 5); [tauto|].
  destruct (Rgeb hT 3 && Rgeb aT 3); tauto.
Qed.

Lemma recent_signal_values (mH mA : nat) :
  recent_signal mH mA = 1 \/ recent_signal mH mA = 0.7 \/
  recent_signal mH mA = 0.5 \/ recent_signal mH mA = 0.3.
Proof.
  unfold recent_signal.
  destruct ((5 <=? mH)%nat && (5 <=? mA)%nat); [tauto|].
  destruct ((3 <=? mH)%nat && (3 <=? mA)%nat); [tauto|].
  destruct ((1 <=? mH)%nat && (1 <=? mA)%nat); tauto.
Qed.

(** X13: whatever the provider answers, the two rates handed to the
    scoreline model lie in the range 0.4 to 3.2, the data-quality and
    recent-form signals of the context lie between 0.3 and 1, and the
    sample-size signal is at most 1. *)
Theorem fixture_rates_in_range (lookup : StatsLookup) (comp : Competition)
    (f : Fixture) :
  0.4 <= rate_home comp f <= 3.2 /\
  0.4 <= rate_away comp f <= 3.2 /\
  0.3 <= dataQuality (context_of comp f) <= 1 /\
  sampleSize (context_of comp f) <= 1 /\
  0.3 <= recentFactor (context_of comp f) <= 1.
Proof.
  destruct (fixtureRates_rates_range lookup comp f) as [RH RA].
  split; [exact RH|]. split; [exact RA|].
  destruct (fixtureRates_cases lookup comp f)
    as [E|[stH [stA [rH [rA Hfull]]]]].
  - unfold context_of. rewrite E. cbn. lra.
  - rewrite (full_data_context lookup comp f stH stA rH rA Hfull).
    cbn [dataQuality sampleSize recentFactor].
    pose proof (quality_signal_values (opt_or0 (played_total stH))
                                      (opt_or0 (played_total stA))) as HQ.
    pose proof (recent_signal_values (matches (computeFormFactor rH))
                                     (matches (computeFormFactor rA))) as HR.
    split; [destruct HQ as [E | [E | E]]; rewrite E; lra|].
    split; [unfold sample_signal; apply Rmin_l|].
    destruct HR as [E | [E | [E | E]]]; rewrite E; lra.
Qed.

Lemma rates_outcome_bounds (lH lA : R) (ctx : MatchContext) :
  0.4 <= lH <= 3.2 -> 0.4 <= lA <= 3.2 ->
  96 < outcome_sum (buildPrediction lH lA ctx) < 100.
Proof.
  intros HH HA. rewrite outcome_sum_mass.
  pose proof (truncated_mass_bounds lH ltac:(lra)) as [_ H2].
  pose proof (truncated_mass_bounds lA ltac:(lra)) as [_ H4].
  pose proof (truncated_mass_range lH ltac:(lra)) as H5.
  pose proof (truncated_mass_range lA ltac:(lra)) as H6.
  assert (0.98 * 0.98 < truncated_mass lH * truncated_mass lA)
    by (apply Rmult_le_0_lt_compat; lra).
  assert (truncated_mass lH * truncated_mass lA < 1 * 1)
    by (apply Rmult_le_0_lt_compat; lra).
  lra.
Qed.

(** X14: for every fixture, whatever the provider answers, the three
    outcome probabilities of the prediction are positive and add up to
    more than 96 and less than 100, and the side whose rate is higher by
    at least 0.01 is the favourite, by at least 0.001 percentage points. *)
Theorem every_fixture_forecast (lookup : StatsLookup) (comp : Competition)
    (f : Fixture) :
  let p := buildPredictionForFixture comp f in
  0 < probHome p /\ 0 < probDraw p /\ 0 < probAway p /\
  96 < outcome_sum p < 100 /\
  (rate_away comp f + 0.01 <= rate_home comp f ->
   probAway p + 0.001 <= probHome p) /\
  (rate_home comp f + 0.01 <= rate_away comp f ->
   probHome p + 0.001 <= probAway p).
Proof.
  destruct (fixtureRates_rates_range lookup comp f) as [RH RA].
  unfold buildPredictionForFixture, rate_home, rate_away in *.
  destruct (fixtureRates comp f) as [[lH lA] ctx]. cbn [fst snd] in *.
  cbv zeta.
  assert (Hp : forall k, 0 < poissonPMF lH k)
    by (intros k; apply poissonPMF_pos; lra).
  assert (Hq : forall k, 0 < poissonPMF lA k)
    by (intros k; apply poissonPMF_pos; lra).
  destruct (grid_positive _ _ Hp Hq) as [PH [PD [PA _]]]. cbv zeta in *.
  split; [unfold buildPrediction, assign_tags; cbn [probHome]; lra|].
  split; [unfold buildPrediction, assign_tags; cbn [probDraw]; lra|].
  split; [unfold buildPrediction, assign_tags; cbn [probAway]; lra|].
  split; [apply rates_outcome_bounds; assumption|].
  split.
  - intros Hgap.
    destruct (favourite_margin lA lH ctx ltac:(lra) ltac:(lra) ltac:(lra))
      as [H _]. lra.
  - intros Hgap.
    destruct (favourite_margin lH lA ctx ltac:(lra) ltac:(lra) ltac:(lra))
      as [_ H]. lra.
Qed.

(** X15: a fixture that lacks a team identifier (absent or 0) is predicted
    from the fallback without consulting the provider: any two providers
    give the same prediction, the one of the rates 1.35 and 1.25 on the
    initial context. *)
Theorem missing_team_fallback (lookup lookup' : StatsLookup) (comp : Competition)
    (f : Fixture) :
  id_truthy (home_id f) = None \/ id_truthy (away_id f) = None ->
  @buildPredictionForFixture lookup comp f
  = buildPrediction 1.35 1.25 initial_context /\
  @buildPredictionForFixture lookup comp f
  = @buildPredictionForFixture lookup' comp f.
Proof.
  intros Hid.
  assert (H : forall l : StatsLookup,
             @fixtureRates l comp f = (1.35, 1.25, initial_context)).
  { intros l. unfold fixtureRates.
    destruct Hid as [E|E]; rewrite E; [reflexivity|].
    destruct (id_truthy (home_id f)); reflexivity. }
  unfold buildPredictionForFixture. rewrite (H lookup), (H lookup').
  split; reflexivity.
Qed.

Lemma missing_team_fallback_witness :
  @buildPredictionForFixture symmetric_lookup (mkCompetition 39 2024)
     (mkFixture (Some 0%nat) (Some 2%nat))
  = buildPrediction 1.35 1.25 initial_context.
Proof.
  apply (missing_team_fallback symmetric_lookup home_only_lookup
           (mkCompetition 39 2024) (mkFixture (Some 0%nat) (Some 2%nat))).
  left. reflexivity.
Defined.

Lemma Rgeb_min_INR (a c : nat) (k : nat) :
  Rgeb (Rmin (INR a) (INR c)) (INR k) = (k <=? a)%nat && (k <=? c)%nat.
Proof.
  unfold Rgeb.
  destruct (Nat.leb_spec k a) as [Ha|Ha]; destruct (Nat.leb_spec k c) as [Hc|Hc];
    cbn [andb].
  - apply le_INR in Ha. apply le_INR in Hc.
    destruct (Rge_dec (Rmin (INR a) (INR c)) (INR k)) as [_|N]; [reflexivity|].
    exfalso. apply N. apply Rle_ge. apply Rmin_glb; assumption.
  - apply lt_INR in Hc.
    destruct (Rge_dec (Rmin (INR a) (INR c)) (INR k)) as [G|_]; [|reflexivity].
    pose proof (Rmin_r (INR a) (INR c)). lra.
  - apply lt_INR in Ha.
    destruct (Rge_dec (Rmin (INR a) (INR c)) (INR k)) as [G|_]; [|reflexivity].
    pose proof (Rmin_l (INR a) (INR c)). lra.
  - apply lt_INR in Ha.
    destruct (Rge_dec (Rmin (INR a) (INR c)) (INR k)) as [G|_]; [|reflexivity].
    pose proof (Rmin_l (INR a) (INR c)). lra.
Qed.

(** X16: when the statistics of both teams are there, the components the
    confidence scorer recomputes from the match counts are exactly the
    three signals stored in the context. *)
Theorem scorer_agrees_with_context (lookup : StatsLookup) (comp : Competition)
    (f : Fixture) (stH stA : TeamStats) (rH rA : option (list FormSample))
    (pH pD pA : R) :
  full_data comp f stH stA rH rA ->
  heuristics (buildRealConfidence pH pD pA (Some (context_of comp f)))
  = (dataQuality (context_of comp f), sampleSize (context_of comp f),
     recentFactor (context_of comp f)).
Proof.
  intros Hfull.
  rewrite (full_data_context lookup comp f stH stA rH rA Hfull).
  unfold heuristics, buildRealConfidence.
  cbn [homeMatchesTotal awayMatchesTotal homeRecentMatches awayRecentMatches
       dataQuality sampleSize recentFactor components dataQ sample recent].
  rewrite !or0_id.
  set (mH := matches (computeFormFactor rH)).
  set (mA := matches (computeFormFactor rA)).
  assert (Hlit : forall (k : nat) (x : R), x = INR k ->
            Rgeb (Rmin (INR mH) (INR mA)) x = (k <=? mH)%nat && (k <=? mA)%nat).
  { intros k x ->. apply Rgeb_min_INR. }
  rewrite (Hlit 5%nat 5), (Hlit 3%nat 3), (Hlit 1%nat 1) by (simpl; lra).
  reflexivity.
Qed.

Lemma scorer_agrees_with_context_witness :
  heuristics (buildRealConfidence 40 30 30
     (Some (@context_of symmetric_lookup (mkCompetition 39 2024)
              (mkFixture (Some 1%nat) (Some 2%nat)))))
  = (dataQuality (@context_of symmetric_lookup (mkCompetition 39 2024)
                    (mkFixture (Some 1%nat) (Some 2%nat))),
     sampleSize (@context_of symmetric_lookup (mkCompetition 39 2024)
                   (mkFixture (Some 1%nat) (Some 2%nat))),
     recentFactor (@context_of symmetric_lookup (mkCompetition 39 2024)
                     (mkFixture (Some 1%nat) (Some 2%nat)))).
Proof.
  apply (scorer_agrees_with_context symmetric_lookup (mkCompetition 39 2024)
           (mkFixture (Some 1%nat) (Some 2%nat))
           (mkStats (Some 10) (Some 10) (Some 20)
                    (Some 13) (Some 13) (Some 12) (Some 12))
           (mkStats (Some 10) (Some 10) (Some 20)
                    (Some 13) (Some 13) (Some 12) (Some 12))
           None None).
  exists 1%nat, 2%nat. repeat split; reflexivity.
Defined.

Lemma Rgeb_false (x y : R) : Rgeb x y = false <-> x < y.
Proof.
  unfold Rgeb. destruct (Rge_dec x y); split; intros; try congruence; lra.
Qed.

Lemma quality_thresholds (hT aT : R) :
  Rgeb (quality_signal hT aT) 0.8 = Rgeb hT 5 && Rgeb aT 5 /\
  Rgeb (quality_signal hT aT) 0.5 = Rgeb hT 3 && Rgeb aT 3.
Proof.
  unfold quality_signal.
  destruct (Rgeb hT 5) eqn:H5; destruct (Rgeb aT 5) eqn:A5;
    destruct (Rgeb hT 3) eqn:H3; destruct (Rgeb aT 3) eqn:A3; cbn [andb];
    try apply Rgeb_true in H5; try apply Rgeb_true in A5;
    try apply Rgeb_false in H3; try apply Rgeb_false in A3;
    try lra;
    split; unfold Rgeb; decide_R; reflexivity.
Qed.

Lemma sample_thresholds (hT aT : R) :
  Rgeb (sample_signal hT aT) 0.6 = Rgeb (hT + aT) 24 /\
  Rgeb (sample_signal hT aT) 0.4 = Rgeb (hT + aT) 16.
Proof.
  unfold sample_signal, Rmin.
  destruct (Rle_dec 1 ((hT + aT) / 40)) as [H|H]; unfold Rgeb;
    split; decide_R; reflexivity.
Qed.

Lemma recent_thresholds (mH mA : nat) :
  Rgeb (recent_signal mH mA) 0.7 = (3 <=? mH)%nat && (3 <=? mA)%nat.
Proof.
  unfold recent_signal.
  destruct (Nat.leb_spec 5 mH); destruct (Nat.leb_spec 5 mA);
    destruct (Nat.leb_spec 3 mH); destruct (Nat.leb_spec 3 mA);
    destruct (Nat.leb_spec 1 mH); destruct (Nat.leb_spec 1 mA);
    cbn [andb]; try lia; unfold Rgeb; decide_R; reflexivity.
Qed.

Lemma dataFlag_of_fixture (lookup : StatsLookup) (comp : Competition)
    (f : Fixture) :
  dataFlag (buildPredictionForFixture comp f)
  = Some (getDataFlag (mkSignals (dataQuality (context_of comp f))
                                 (sampleSize (context_of comp f))
                                 (recentFactor (context_of comp f)))).
Proof.
  unfold buildPredictionForFixture, context_of.
  destruct (fixtureRates comp f) as [[lH lA] ctx]. reflexivity.
Qed.

(** X17: when the statistics of both teams are there, the data flag is
    decided by the match counts: GOOD_DATA exactly when both season totals
    are at least 5, they add up to at least 24 and both teams have at
    least 3 recent matches; LOW_DATA exactly when a season total is below
    3 or the totals add up to less than 16. *)
Theorem data_flag_by_counts (lookup : StatsLookup) (comp : Competition)
    (f : Fixture) (stH stA : TeamStats) (rH rA : option (list FormSample)) :
  full_data comp f stH stA rH rA ->
  let hT := opt_or0 (played_total stH) in
  let aT := opt_or0 (played_total stA) in
  let mH := matches (computeFormFactor rH) in
  let mA := matches (computeFormFactor rA) in
  (dataFlag (buildPredictionForFixture comp f) = Some "GOOD_DATA"%string <->
   hT >= 5 /\ aT >= 5 /\ hT + aT >= 24 /\ (3 <= mH)%nat /\ (3 <= mA)%nat) /\
  (dataFlag (buildPredictionForFixture comp f) = Some "LOW_DATA"%string <->
   ~ (hT >= 3 /\ aT >= 3 /\ hT + aT >= 16)).
Proof.
  intros Hfull hT aT mH mA.
  rewrite dataFlag_of_fixture.
  rewrite (full_data_context lookup comp f stH stA rH rA Hfull).
  cbn [dataQuality sampleSize recentFactor]. fold hT aT mH mA.
  unfold getDataFlag. cbn [sig_dataQuality sig_sampleSize sig_recentFactor].
  destruct (quality_thresholds hT aT) as [Q8 Q5].
  destruct (sample_thresholds hT aT) as [S6 S4].
  rewrite Q8, Q5, S6, S4, recent_thresholds.
  destruct (Rgeb hT 5) eqn:H5; destruct (Rgeb aT 5) eqn:A5;
    destruct (Rgeb hT 3) eqn:H3; destruct (Rgeb aT 3) eqn:A3;
    destruct (Rgeb (hT + aT) 24) eqn:T24; destruct (Rgeb (hT + aT) 16) eqn:T16;
    destruct (Nat.leb_spec 3 mH) as [MH|MH];
    destruct (Nat.leb_spec 3 mA) as [MA|MA];
    cbn [andb];
    try apply Rgeb_true in H5; try apply Rgeb_false in H5;
    try apply Rgeb_true in A5; try apply Rgeb_false in A5;
    try apply Rgeb_true in H3; try apply Rgeb_false in H3;
    try apply Rgeb_true in A3; try apply Rgeb_false in A3;
    try apply Rgeb_true in T24; try apply Rgeb_false in T24;
    try apply Rgeb_true in T16; try apply Rgeb_false in T16;
    try lra;
    (split; split;
     [ intros E; try discriminate E; repeat split; solve [assumption | lra | lia]
     | intros H; try reflexivity; exfalso; solve [lra | lia | tauto]
     | intros E; try discriminate E; intros H; lra
     | intros H; try reflexivity; exfalso; apply H; repeat split; assumption ]).
Qed.

Lemma data_flag_by_counts_witness :
  dataFlag (@buildPredictionForFixture symmetric_lookup (mkCompetition 39 2024)
              (mkFixture (Some 1%nat) (Some 2%nat)))
  <> Some "LOW_DATA"%string.
Proof.
  destruct (data_flag_by_counts symmetric_lookup (mkCompetition 39 2024)
              (mkFixture (Some 1%nat) (Some 2%nat))
              (mkStats (Some 10) (Some 10) (Some 20)
                       (Some 13) (Some 13) (Some 12) (Some 12))
              (mkStats (Some 10) (Some 10) (Some 20)
                       (Some 13) (Some 13) (Some 12) (Some 12))
              None None) as [_ [Hlow _]].
  - exists 1%nat, 2%nat. repeat split; reflexivity.
  - intros E. apply Hlow in E. apply E.
    cbn [played_total opt_or0]. rewrite or0_id. lra.
Defined.

Lemma prediction_of_fixture (lookup : StatsLookup) (comp : Competition)
    (f : Fixture) :
  buildPredictionForFixture comp f
  = buildPrediction (rate_home comp f) (rate_away comp f) (context_of comp f).
Proof.
  unfold buildPredictionForFixture, rate_home, rate_away, context_of.
  destruct (fixtureRates comp f) as [[lH lA] ctx]. reflexivity.
Qed.

Lemma truthy_zero (x : R) : x = 0 -> truthy x = false.
Proof. intros ->. unfold truthy. destruct (Req_dec_T 0 0); congruence. Qed.

Lemma truthy_nonzero (x : R) : x <> 0 -> truthy x = true.
Proof. intros H. unfold truthy. destruct (Req_dec_T x 0); congruence. Qed.

(** X18: when a team has statistics but no match at its venue (the count
    is absent or 0), its goal columns are not divided by: the league
    averages stand in, which gives the base rates 1.43 and 1.1875 before
    the form factors, and exactly these rates when no recent form is
    known. *)
Theorem no_venue_matches_defaults (lookup : StatsLookup) (comp : Competition)
    (f : Fixture) (stH stA : TeamStats) (rH rA : option (list FormSample)) :
  full_data comp f stH stA rH rA ->
  opt_or0 (played_home stH) = 0 -> opt_or0 (played_away stA) = 0 ->
  let fH := computeFormFactor rH in
  let fA := computeFormFactor rA in
  rate_home comp f = clamp (1.43 * (attack fH * defense fA)) 0.4 3.2 /\
  rate_away comp f = clamp (1.1875 * (attack fA * defense fH)) 0.4 3.2 /\
  (rH = None -> rA = None ->
   rate_home comp f = 1.43 /\ rate_away comp f = 1.1875).
Proof.
  intros Hfull HH HA fH fA.
  destruct (full_data_rates lookup comp f stH stA rH rA Hfull) as [EH EA].
  cbv zeta in EH, EA. rewrite HH, HA in EH, EA.
  rewrite (truthy_zero 0 eq_refl) in EH, EA.
  replace ((1.4 + 1.2) / 2 * 1.1) with 1.43 in EH by lra.
  replace ((1.3 + 1.2) / 2 * 0.95) with 1.1875 in EA by lra.
  rewrite (clamp_inside 1.43) in EH by lra.
  rewrite (clamp_inside 1.1875) in EA by lra.
  fold fH fA in EH, EA.
  split; [exact EH|]. split; [exact EA|].
  intros -> ->. rewrite EH, EA. unfold fH, fA. cbn [computeFormFactor attack defense].
  replace (1.43 * (1 * 1)) with 1.43 by lra.
  replace (1.1875 * (1 * 1)) with 1.1875 by lra.
  split; apply clamp_inside; lra.
Qed.

(** A provider whose teams have played no match yet. *)
Lemma no_venue_matches_defaults_witness :
  @rate_home
     {| getTeamStats := fun _ _ _ =>
          Resolved (Some (mkStats None (Some 0) None None None None None));
        getTeamRecentForm := fun _ _ _ => Resolved None |}
     (mkCompetition 39 2024) (mkFixture (Some 1%nat) (Some 2%nat))
  = 1.43.
Proof.
  destruct (no_venue_matches_defaults
              {| getTeamStats := fun _ _ _ =>
                   Resolved (Some (mkStats None (Some 0) None None None None None));
                 getTeamRecentForm := fun _ _ _ => Resolved None |}
              (mkCompetition 39 2024) (mkFixture (Some 1%nat) (Some 2%nat))
              (mkStats None (Some 0) None None None None None)
              (mkStats None (Some 0) None None None None None)
              None None) as [_ [_ H]].
  - exists 1%nat, 2%nat. repeat split; reflexivity.
  - reflexivity.
  - cbn [played_away opt_or0]. apply or0_id.
  - apply H; reflexivity.
Defined.

(** X19: home advantage.  When both teams have played at their venue with
    the same averages of goals scored and conceded (their sum not
    negative) and have the same form factors, the home rate is at least
    the away rate; and when it is higher by at least 0.01 the home win is
    more probable than the away win, by at least 0.001 percentage
    points. *)
Theorem home_advantage (lookup : StatsLookup) (comp : Competition)
    (f : Fixture) (stH stA : TeamStats) (rH rA : option (list FormSample)) :
  full_data comp f stH stA rH rA ->
  opt_or0 (played_home stH) <> 0 -> opt_or0 (played_away stA) <> 0 ->
  opt_or0 (goals_for_home stH) / opt_or0 (played_home stH)
  = opt_or0 (goals_for_away stA) / opt_or0 (played_away stA) ->
  opt_or0 (goals_against_home stH) / opt_or0 (played_home stH)
  = opt_or0 (goals_against_away stA) / opt_or0 (played_away stA) ->
  0 <= opt_or0 (goals_for_home stH) / opt_or0 (played_home stH)
       + opt_or0 (goals_against_home stH) / opt_or0 (played_home stH) ->
  computeFormFactor rH = computeFormFactor rA ->
  rate_away comp f <= rate_home comp f /\
  (rate_away comp f + 0.01 <= rate_home comp f ->
   probAway (buildPredictionForFixture comp f) + 0.001
   <= probHome (buildPredictionForFixture comp f)).
Proof.
  intros Hfull HhP HaP EF EA Hnonneg Eform.
  destruct (full_data_rates lookup comp f stH stA rH rA Hfull) as [RH RA].
  cbv zeta in RH, RA.
  rewrite (truthy_nonzero _ HhP), (truthy_nonzero _ HaP) in RH, RA.
  rewrite <- EA in RH. rewrite <- EF in RA. rewrite Eform in RH, RA.
  set (F := opt_or0 (goals_for_home stH) / opt_or0 (played_home stH)) in *.
  set (A := opt_or0 (goals_against_home stH) / opt_or0 (played_home stH)) in *.
  destruct (form_factor_band rA) as [[Hatk _] [Hdef _]].
  set (k := attack (computeFormFactor rA) * defense (computeFormFactor rA)) in *.
  assert (Hk : 0 <= k).
  { unfold k. apply Rmult_le_pos; lra. }
  assert (Hle : rate_away comp f <= rate_home comp f).
  { rewrite RH, RA. apply clamp_monotone.
    apply Rmult_le_compat_r; [exact Hk|].
    apply clamp_monotone. lra. }
  split; [exact Hle|].
  destruct (fixtureRates_rates_range lookup comp f) as [BH BA].
  rewrite prediction_of_fixture.
  set (lH := rate_home comp f) in *. set (lA := rate_away comp f) in *.
  set (ctx := context_of comp f).
  intros Hgap.
  destruct (favourite_margin lA lH ctx ltac:(lra) ltac:(lra) ltac:(lra))
    as [H _]. lra.
Qed.

Lemma home_advantage_witness :
  @rate_away symmetric_lookup (mkCompetition 39 2024)
     (mkFixture (Some 1%nat) (Some 2%nat))
  <= @rate_home symmetric_lookup (mkCompetition 39 2024)
       (mkFixture (Some 1%nat) (Some 2%nat)).
Proof.
  apply (home_advantage symmetric_lookup (mkCompetition 39 2024)
           (mkFixture (Some 1%nat) (Some 2%nat))
           (mkStats (Some 10) (Some 10) (Some 20)
                    (Some 13) (Some 13) (Some 12) (Some 12))
           (mkStats (Some 10) (Some 10) (Some 20)
                    (Some 13) (Some 13) (Some 12) (Some 12))
           None None).
  - exists 1%nat, 2%nat. repeat split; reflexivity.
  - cbn [played_home opt_or0]. rewrite or0_id. lra.
  - cbn [played_away opt_or0]. rewrite or0_id. lra.
  - reflexivity.
  - reflexivity.
  - cbn [played_home goals_for_home goals_against_home opt_or0].
    rewrite !or0_id. lra.
  - reflexivity.
Defined.

(** ** What the prediction reports *)

(** X20: the confidence label never reads medium or high: for every input
    of the scorer, and so for every fixture, it is the label of the lowest
    confidence, because the percentage it is derived from is NaN. *)
Theorem confidence_label_always_low :
  (forall (pH pD pA : R) (context : option MatchContext),
      label (buildRealConfidence pH pD pA context) = "scăzută"%string) /\
  (forall (lookup : StatsLookup) (comp : Competition) (f : Fixture),
      label (real (confidenceDetails (buildPredictionForFixture comp f)))
      = "scăzută"%string).
Proof.
  assert (H : forall pH pD pA context,
             label (buildRealConfidence pH pD pA context) = "scăzută"%string).
  { intros pH pD pA context. unfold buildRealConfidence.
    rewrite clarity_NaN. destruct context; reflexivity. }
  split; [exact H|].
  intros lookup comp f. rewrite prediction_of_fixture.
  unfold buildPrediction, assign_tags. cbn [confidenceDetails real]. apply H.
Qed.

(** X21: whenever the fallback is taken, that is unless both teams are
    named and all four lookups answer with both statistics present, the
    prediction carries the flag LOW_DATA. *)
Theorem fallback_is_low_data (lookup : StatsLookup) (comp : Competition)
    (f : Fixture) :
  ~ (exists stH stA rH rA, full_data comp f stH stA rH rA) ->
  dataFlag (buildPredictionForFixture comp f) = Some "LOW_DATA"%string.
Proof.
  intros Hno.
  destruct (fixtureRates_cases lookup comp f) as [E|Hfull]; [|contradiction].
  rewrite dataFlag_of_fixture. unfold context_of. rewrite E.
  cbn [snd]. unfold initial_context, getDataFlag.
  cbn [dataQuality sampleSize recentFactor
       sig_dataQuality sig_sampleSize sig_recentFactor].
  unfold Rgeb. decide_R; reflexivity.
Qed.

Lemma fallback_is_low_data_witness :
  dataFlag (@buildPredictionForFixture home_only_lookup (mkCompetition 39 2024)
              (mkFixture (Some 1%nat) (Some 2%nat)))
  = Some "LOW_DATA"%string.
Proof.
  apply (fallback_is_low_data home_only_lookup (mkCompetition 39 2024)
           (mkFixture (Some 1%nat) (Some 2%nat))).
  intros [stH [stA [rH [rA [home [away [Hh [Ha [HsH [HsA _]]]]]]]]]].
  simpl in Ha. injection Ha as <-. discriminate HsA.
Defined.

Lemma round_near (r : R) : r - / 2 < round r <= r + / 2.
Proof.
  unfold round. destruct (base_Int_part (r + / 2)) as [H1 H2]. lra.
Qed.

Lemma toFixed2_near (x : R) :
  Rabs (toFixed2 x - x) <= 0.005 /\ exists n : Z, toFixed2 x = IZR n / 100.
Proof.
  unfold toFixed2. destruct (Rlt_dec x 0) as [Hneg|Hpos].
  - pose proof (round_near (- x * 100)) as [H1 H2]. split.
    + apply Rabs_le. lra.
    + exists (- Int_part (- x * 100 + / 2))%Z. unfold round.
      rewrite opp_IZR. lra.
  - pose proof (round_near (x * 100)) as [H1 H2]. split.
    + apply Rabs_le. lra.
    + exists (Int_part (x * 100 + / 2)). reflexivity.
Qed.

Lemma toFixed2_range (x : R) : 0.4 <= x <= 3.2 -> 0.4 <= toFixed2 x <= 3.2.
Proof.
  intros [H1 H2]. unfold toFixed2, round.
  destruct (Rlt_dec x 0) as [Hneg|_]; [lra|].
  destruct (base_Int_part (x * 100 + / 2)) as [B1 B2].
  set (k := Int_part (x * 100 + / 2)) in *.
  assert (Hlo : (39 < k)%Z) by (apply lt_IZR; lra).
  assert (Hhi : (k < 321)%Z) by (apply lt_IZR; lra).
  assert (Hlo' : (40 <= k)%Z) by lia.
  assert (Hhi' : (k <= 320)%Z) by lia.
  apply IZR_le in Hlo'. apply IZR_le in Hhi'. lra.
Qed.

(** X22: the rates a prediction reports are the rates rounded to hundredths:
    a whole number of hundredths within 0.005 of the rate used; for every
    fixture they lie in the range 0.4 to 3.2 like the rates themselves. *)
Theorem reported_rates :
  (forall (lambdaHome lambdaAway : R) (ctx : MatchContext),
      let l := lambdas (buildPrediction lambdaHome lambdaAway ctx) in
      Rabs (lambda_home l - lambdaHome) <= 0.005 /\
      Rabs (lambda_away l - lambdaAway) <= 0.005 /\
      (exists n : Z, lambda_home l = IZR n / 100) /\
      (exists n : Z, lambda_away l = IZR n / 100)) /\
  (forall (lookup : StatsLookup) (comp : Competition) (f : Fixture),
      let l := lambdas (buildPredictionForFixture comp f) in
      0.4 <= lambda_home l <= 3.2 /\ 0.4 <= lambda_away l <= 3.2).
Proof.
  split.
  - intros lambdaHome lambdaAway ctx.
    unfold buildPrediction, assign_tags. cbn [lambdas lambda_home lambda_away].
    destruct (toFixed2_near lambdaHome) as [H1 H2].
    destruct (toFixed2_near lambdaAway) as [H3 H4].
    repeat split; assumption.
  - intros lookup comp f. rewrite prediction_of_fixture.
    destruct (fixtureRates_rates_range lookup comp f) as [RH RA].
    unfold buildPrediction, assign_tags. cbn [lambdas lambda_home lambda_away].
    split; apply toFixed2_range; assumption.
Qed.

(** ** Retries and memoised lookups *)

Lemma retry_loop_step (World : Type) (provider : Remote.Provider World)
    (req : Remote.Request) (n : nat) (last : option Remote.FetchError)
    (w : World) :
  Remote.retry_loop req (S n) last w
  = match Remote.apiFetch req w with
    | (Remote.Fetched json, w') => (Remote.Returned json, w')
    | (Remote.Failed e, w') =>
        if Remote.client_error e then (Remote.Threw (Some e), w')
        else Remote.retry_loop req n (Some e) w'
    end.
Proof. reflexivity. Qed.

Lemma retry_loop_scripted (script : Remote.Request -> nat -> Remote.fetched)
    (req : Remote.Request) (n : nat) (last : option Remote.FetchError) (w : nat) :
  exists k : nat,
    (k <= n)%nat /\
    snd (@Remote.retry_loop nat (Remote.scripted script) req (S n) last w)
    = (w + k + 1)%nat /\
    (forall i, (i < k)%nat ->
       exists e, script req (w + i)%nat = Remote.Failed e /\
                 Remote.client_error e = false) /\
    match script req (w + k)%nat with
    | Remote.Fetched r =>
        fst (@Remote.retry_loop nat (Remote.scripted script) req (S n) last w)
        = Remote.Returned r
    | Remote.Failed e =>
        fst (@Remote.retry_loop nat (Remote.scripted script) req (S n) last w)
        = Remote.Threw (Some e) /\
        (Remote.client_error e = true \/ k = n)
    end.
Proof.
  revert last w. induction n as [|n IH]; intros last w.
  - exists 0%nat. rewrite Nat.add_0_r, retry_loop_step.
    cbn [Remote.retry_loop Remote.apiFetch Remote.scripted].
    split; [lia|].
    destruct (script req w) as [r|e] eqn:E.
    + cbn [fst snd]. split; [lia|]. split; [intros i Hi; lia|reflexivity].
    + destruct (Remote.client_error e) eqn:C; cbn [fst snd];
        (split; [lia|]; split; [intros i Hi; lia|]; split; [reflexivity|tauto]).
  - rewrite retry_loop_step. cbn [Remote.apiFetch Remote.scripted].
    destruct (script req w) as [r|e] eqn:E.
    + exists 0%nat. rewrite Nat.add_0_r, E. cbn [fst snd].
      split; [lia|]. split; [lia|]. split; [intros i Hi; lia|reflexivity].
    + destruct (Remote.client_error e) eqn:C.
      * exists 0%nat. rewrite Nat.add_0_r, E. cbn [fst snd].
        split; [lia|]. split; [lia|]. split; [intros i Hi; lia|].
        split; [reflexivity|left; exact C].
      * destruct (IH (Some e) (S w)) as [k [Hk [Hw [Hpre Hend]]]].
        exists (S k). split; [lia|]. split; [rewrite Hw; lia|].
        split.
        -- intros i Hi. destruct i as [|i].
           ++ rewrite Nat.add_0_r. exists e. split; assumption.
           ++ replace (w + S i)%nat with (S w + i)%nat by lia. apply Hpre. lia.
        -- replace (w + S k)%nat with (S w + k)%nat by lia.
           destruct (script req (S w + k)%nat) as [r'|e'].
           ++ exact Hend.
           ++ destruct Hend as [Hf Hor]. split; [exact Hf|].
              destruct Hor as [Hc|Hn]; [left; exact Hc|right; lia].
Qed.

(** X23: against a provider that answers from a script, [apiFetchWithRetry]
    makes between 1 and [retries + 1] calls; every call before the last
    one failed with an error that is not a client error; and the last call
    decides: its answer is returned, or its error is thrown, which happens
    only for a client error (status 1 to 499, never retried) or when the
    retries are used up. *)
Theorem apiFetchWithRetry_scripted
    (script : Remote.Request -> nat -> Remote.fetched)
    (req : Remote.Request) (retries : nat) (w : nat) :
  exists k : nat,
    (k <= retries)%nat /\
    snd (@Remote.apiFetchWithRetry nat (Remote.scripted script) req retries w)
    = (w + k + 1)%nat /\
    (forall i, (i < k)%nat ->
       exists e, script req (w + i)%nat = Remote.Failed e /\
                 Remote.client_error e = false) /\
    match script req (w + k)%nat with
    | Remote.Fetched r =>
        fst (@Remote.apiFetchWithRetry nat (Remote.scripted script) req retries w)
        = Remote.Returned r
    | Remote.Failed e =>
        fst (@Remote.apiFetchWithRetry nat (Remote.scripted script) req retries w)
        = Remote.Threw (Some e) /\
        (Remote.client_error e = true \/ k = retries)
    end.
Proof.
  unfold Remote.apiFetchWithRetry.
  destruct (retry_loop_scripted script req retries None w)
    as [k [Hk [Hw [Hpre Hend]]]].
  exists k. split; [exact Hk|]. split; [exact Hw|]. split; assumption.
Qed.

Lemma cache_set_same {V : Type} (c : Remote.Cache V) (key : string) (v : V) :
  Remote.cache_set c key v key = Some v.
Proof. unfold Remote.cache_set. rewrite String.eqb_refl. reflexivity. Qed.

Lemma cache_set_other {V : Type} (c : Remote.Cache V) (key key' : string) (v : V) :
  key' <> key -> Remote.cache_set c key v key' = c key'.
Proof.
  intros H. unfold Remote.cache_set.
  destruct (String.eqb_spec key' key); [contradiction|reflexivity].
Qed.

(** ** Cache keys *)

Lemma number_string_inj (n m : nat) :
  Remote.number_string n = Remote.number_string m -> n = m.
Proof.
  unfold Remote.number_string. intros H.
  apply Unsigned.to_uint_inj.
  assert (Hs : Some (Nat.to_uint n) = Some (Nat.to_uint m)).
  { rewrite <- (NilEmpty.usu (Nat.to_uint n)), <- (NilEmpty.usu (Nat.to_uint m)).
    rewrite H. reflexivity. }
  injection Hs as Hs. exact Hs.
Qed.

Lemma uint_string_no_dash (d : Decimal.uint) :
  no_dash (NilEmpty.string_of_uint d).
Proof.
  induction d; cbn [NilEmpty.string_of_uint no_dash];
    try exact I; (split; [discriminate|assumption]).
Qed.

Lemma number_string_no_dash (n : nat) : no_dash (Remote.number_string n).
Proof. apply uint_string_no_dash. Qed.

(** Two strings without the separator that are followed by the separator
    agree as soon as the whole strings agree. *)
Lemma split_at_dash (a a' rest rest' : string) :
  no_dash a -> no_dash a' ->
  (a ++ String "-" rest)%string = (a' ++ String "-" rest')%string ->
  a = a' /\ rest = rest'.
Proof.
  revert a'. induction a as [|c a IH]; intros [|c' a'] Ha Ha' H;
    cbn [append no_dash] in *.
  - injection H as H. split; [reflexivity|exact H].
  - injection H as Hc _. destruct Ha' as [Hc' _]. congruence.
  - injection H as Hc _. destruct Ha as [Hc' _]. congruence.
  - injection H as Hc H. destruct Ha as [_ Ha]. destruct Ha' as [_ Ha'].
    destruct (IH a' Ha Ha' H) as [E1 E2]. subst. split; reflexivity.
Qed.

Lemma stats_key_inj (l s t l' s' t' : nat) :
  Remote.stats_key l s t = Remote.stats_key l' s' t' ->
  l = l' /\ s = s' /\ t = t'.
Proof.
  unfold Remote.stats_key. intros H.
  apply split_at_dash in H; try apply number_string_no_dash.
  destruct H as [El H].
  apply split_at_dash in H; try apply number_string_no_dash.
  destruct H as [Es Et].
  repeat split; apply number_string_inj; assumption.
Qed.

Lemma form_key_inj (l s t l' s' t' : nat) :
  Remote.form_key l s t = Remote.form_key l' s' t' ->
  l = l' /\ s = s' /\ t = t'.
Proof.
  unfold Remote.form_key. intros H.
  apply split_at_dash in H; try apply number_string_no_dash.
  destruct H as [El H].
  apply split_at_dash in H; try apply number_string_no_dash.
  destruct H as [Es H].
  change ("-recent"%string) with (String "-" "recent") in H.
  apply split_at_dash in H; try apply number_string_no_dash.
  destruct H as [Et _].
  repeat split; apply number_string_inj; assumption.
Qed.

(** *** Lookups that overlap *)

(** A lookup that misses its cache is its request followed by its
    completion. *)
Lemma getTeamStats_phases (World : Type) (provider : Remote.Provider World)
    (league season team : nat) (st : Remote.Store World) :
  Remote.getTeamStats league season team st
  = match Remote.teamStatsCache st (Remote.stats_key league season team) with
    | Some cached => (cached, st)
    | None =>
        let '(r, w) :=
          Remote.apiFetchWithRetry (Remote.stats_request league season team) 2
            (Remote.world st) in
        (Remote.stats_result r,
         at_world (Remote.complete (Remote.StatsDone league season team r) st) w)
    end.
Proof.
  unfold Remote.getTeamStats.
  destruct (Remote.teamStatsCache st (Remote.stats_key league season team));
    [reflexivity|].
  destruct (Remote.apiFetchWithRetry _ 2 (Remote.world st)) as [[d|last] w];
    [destruct d|]; reflexivity.
Qed.

Lemma getTeamRecentForm_phases (World : Type) (provider : Remote.Provider World)
    (league season team : nat) (st : Remote.Store World) :
  Remote.getTeamRecentForm league season team st
  = match Remote.teamFormCache st (Remote.form_key league season team) with
    | Some cached => (cached, st)
    | None =>
        let '(r, w) :=
          Remote.apiFetchWithRetry (Remote.form_request league season team) 2
            (Remote.world st) in
        (Remote.form_result team r,
         at_world (Remote.complete (Remote.FormDone league season team r) st) w)
    end.
Proof.
  unfold Remote.getTeamRecentForm.
  destruct (Remote.teamFormCache st (Remote.form_key league season team));
    [reflexivity|].
  destruct (Remote.apiFetchWithRetry _ 2 (Remote.world st)) as [[d|last] w];
    [destruct d as [| |[|x l]]|]; reflexivity.
Qed.

Lemma other_than_stats_key (league season team : nat) (c : Remote.Completion) :
  other_than_stats league season team c = true ->
  forall World (st : Remote.Store World),
    Remote.teamStatsCache (Remote.complete c st)
      (Remote.stats_key league season team)
    = Remote.teamStatsCache st (Remote.stats_key league season team).
Proof.
  intros Hc World st. destruct c as [l s t r|l s t r]; [|reflexivity].
  cbn [Remote.complete Remote.teamStatsCache]. apply cache_set_other.
  intros E. apply stats_key_inj in E. destruct E as [E1 [E2 E3]]. subst.
  cbn [other_than_stats] in Hc. rewrite !Nat.eqb_refl in Hc. discriminate.
Qed.

Lemma other_than_form_key (league season team : nat) (c : Remote.Completion) :
  other_than_form league season team c = true ->
  forall World (st : Remote.Store World),
    Remote.teamFormCache (Remote.complete c st)
      (Remote.form_key league season team)
    = Remote.teamFormCache st (Remote.form_key league season team).
Proof.
  intros Hc World st. destruct c as [l s t r|l s t r]; [reflexivity|].
  cbn [Remote.complete Remote.teamFormCache]. apply cache_set_other.
  intros E. apply form_key_inj in E. destruct E as [E1 [E2 E3]]. subst.
  cbn [other_than_form] in Hc. rewrite !Nat.eqb_refl in Hc. discriminate.
Qed.

(** No completion removes an entry. *)
Lemma complete_keeps_stats (World : Type) (c : Remote.Completion)
    (st : Remote.Store World) (key : string) (v : option TeamStats) :
  Remote.teamStatsCache st key = Some v ->
  exists v', Remote.teamStatsCache (Remote.complete c st) key = Some v'.
Proof.
  intros H. destruct c as [l s t r|l s t r]; cbn [Remote.complete Remote.teamStatsCache].
  - unfold Remote.cache_set. destruct (String.eqb key _); eauto.
  - eauto.
Qed.

Lemma complete_keeps_form (World : Type) (c : Remote.Completion)
    (st : Remote.Store World) (key : string) (v : option (list FormSample)) :
  Remote.teamFormCache st key = Some v ->
  exists v', Remote.teamFormCache (Remote.complete c st) key = Some v'.
Proof.
  intros H. destruct c as [l s t r|l s t r]; cbn [Remote.complete Remote.teamFormCache].
  - eauto.
  - unfold Remote.cache_set. destruct (String.eqb key _); eauto.
Qed.

Lemma complete_all_stats (World : Type) (league season team : nat)
    (cs : list Remote.Completion) (st : Remote.Store World)
    (v : option TeamStats) :
  Remote.teamStatsCache st (Remote.stats_key league season team) = Some v ->
  exists v',
    Remote.teamStatsCache (Remote.complete_all cs st)
      (Remote.stats_key league season team) = Some v' /\
    (forallb (other_than_stats league season team) cs = true -> v' = v).
Proof.
  revert st v. induction cs as [|c cs IH]; intros st v H.
  - exists v. split; [exact H|reflexivity].
  - destruct (complete_keeps_stats World c st _ v H) as [v1 H1].
    destruct (IH (Remote.complete c st) v1 H1) as [v' [H' Hsame]].
    exists v'. split; [exact H'|].
    cbn [forallb]. intros Hall. apply andb_prop in Hall.
    destruct Hall as [Hc Hrest].
    rewrite (other_than_stats_key league season team c Hc World st), H in H1.
    injection H1 as <-. apply Hsame, Hrest.
Qed.

Lemma complete_all_form (World : Type) (league season team : nat)
    (cs : list Remote.Completion) (st : Remote.Store World)
    (v : option (list FormSample)) :
  Remote.teamFormCache st (Remote.form_key league season team) = Some v ->
  exists v',
    Remote.teamFormCache (Remote.complete_all cs st)
      (Remote.form_key league season team) = Some v' /\
    (forallb (other_than_form league season team) cs = true -> v' = v).
Proof.
  revert st v. induction cs as [|c cs IH]; intros st v H.
  - exists v. split; [exact H|reflexivity].
  - destruct (complete_keeps_form World c st _ v H) as [v1 H1].
    destruct (IH (Remote.complete c st) v1 H1) as [v' [H' Hsame]].
    exists v'. split; [exact H'|].
    cbn [forallb]. intros Hall. apply andb_prop in Hall.
    destruct Hall as [Hc Hrest].
    rewrite (other_than_form_key league season team c Hc World st), H in H1.
    injection H1 as <-. apply Hsame, Hrest.
Qed.

(** A lookup leaves its key cached with the answer it gives. *)
Lemma getTeamStats_caches (World : Type) (provider : Remote.Provider World)
    (league season team : nat) (st : Remote.Store World) :
  Remote.teamStatsCache (snd (Remote.getTeamStats league season team st))
    (Remote.stats_key league season team)
  = Some (fst (Remote.getTeamStats league season team st)).
Proof.
  rewrite getTeamStats_phases.
  destruct (Remote.teamStatsCache st (Remote.stats_key league season team))
    as [cached|] eqn:Hc; [exact Hc|].
  destruct (Remote.apiFetchWithRetry _ 2 (Remote.world st)) as [r w].
  cbn [fst snd at_world Remote.complete Remote.teamStatsCache].
  apply cache_set_same.
Qed.

Lemma getTeamRecentForm_caches (World : Type) (provider : Remote.Provider World)
    (league season team : nat) (st : Remote.Store World) :
  Remote.teamFormCache (snd (Remote.getTeamRecentForm league season team st))
    (Remote.form_key league season team)
  = Some (fst (Remote.getTeamRecentForm league season team st)).
Proof.
  rewrite getTeamRecentForm_phases.
  destruct (Remote.teamFormCache st (Remote.form_key league season team))
    as [cached|] eqn:Hc; [exact Hc|].
  destruct (Remote.apiFetchWithRetry _ 2 (Remote.world st)) as [r w].
  cbn [fst snd at_world Remote.complete Remote.teamFormCache].
  apply cache_set_same.
Qed.

(** X24: both lookups are memoised, also when lookups overlap.  A lookup
    leaves its key cached with the answer it gives, [null] included.  An
    entry is never removed: whatever lookups complete afterwards, in
    whatever order, and whatever the state of the world, a lookup for a
    cached key makes no request and leaves the caches as they are; it
    answers what is cached then, which is the earlier answer unless a
    lookup for the same key, under way since before, has completed in
    between. *)
Theorem lookups_memoised (World : Type) (provider : Remote.Provider World)
    (league season team : nat) (st : Remote.Store World)
    (cs : list Remote.Completion) (later : World) :
  let st' := at_world (Remote.complete_all cs st) later in
  Remote.teamStatsCache (snd (Remote.getTeamStats league season team st))
    (Remote.stats_key league season team)
  = Some (fst (Remote.getTeamStats league season team st)) /\
  Remote.teamFormCache (snd (Remote.getTeamRecentForm league season team st))
    (Remote.form_key league season team)
  = Some (fst (Remote.getTeamRecentForm league season team st)) /\
  (forall v,
     Remote.teamStatsCache st (Remote.stats_key league season team) = Some v ->
     exists v',
       Remote.getTeamStats league season team st' = (v', st') /\
       (forallb (other_than_stats league season team) cs = true -> v' = v)) /\
  (forall v,
     Remote.teamFormCache st (Remote.form_key league season team) = Some v ->
     exists v',
       Remote.getTeamRecentForm league season team st' = (v', st') /\
       (forallb (other_than_form league season team) cs = true -> v' = v)).
Proof.
  intros st'.
  split; [apply getTeamStats_caches|]. split; [apply getTeamRecentForm_caches|].
  split.
  - intros v Hv.
    destruct (complete_all_stats World league season team cs st v Hv)
      as [v' [H' Hsame]].
    exists v'. split; [|exact Hsame].
    rewrite getTeamStats_phases. unfold st', at_world.
    cbn [Remote.teamStatsCache]. rewrite H'. reflexivity.
  - intros v Hv.
    destruct (complete_all_form World league season team cs st v Hv)
      as [v' [H' Hsame]].
    exists v'. split; [|exact Hsame].
    rewrite getTeamRecentForm_phases. unfold st', at_world.
    cbn [Remote.teamFormCache]. rewrite H'. reflexivity.
Qed.

(** A cached [null] is answered while the statistics and the recent form
    of another team complete. *)
Lemma lookups_memoised_witness :
  fst (@Remote.getTeamStats nat unreachable 39 2024 1
         (at_world
            (Remote.complete_all
               [Remote.StatsDone 39 2024 12 (Remote.Threw None);
                Remote.FormDone 39 2024 1 (Remote.Threw None)]
               (Remote.complete (Remote.StatsDone 39 2024 1 (Remote.Threw None))
                  (Remote.empty_store 0%nat)))
            7%nat))
  = None.
Proof.
  destruct (lookups_memoised nat unreachable 39 2024 1
              (Remote.complete (Remote.StatsDone 39 2024 1 (Remote.Threw None))
                 (Remote.empty_store 0%nat))
              [Remote.StatsDone 39 2024 12 (Remote.Threw None);
               Remote.FormDone 39 2024 1 (Remote.Threw None)]
              7%nat) as [_ [_ [H _]]].
  destruct (H None) as [v' [E Hsame]].
  - cbn [Remote.complete Remote.teamStatsCache Remote.stats_result].
    apply cache_set_same.
  - rewrite E. cbn [fst]. apply Hsame. reflexivity.
Defined.

(** Three failures in a row that are not client errors use up the retries
    of a scripted provider. *)
Lemma three_failures_throw (script : Remote.Request -> nat -> Remote.fetched)
    (req : Remote.Request) (w : nat) :
  (forall i, (i < 3)%nat ->
     exists e, script req (w + i)%nat = Remote.Failed e /\
               Remote.client_error e = false) ->
  exists last,
    @Remote.apiFetchWithRetry nat (Remote.scripted script) req 2 w
    = (Remote.Threw last, (w + 3)%nat).
Proof.
  intros Hfail.
  destruct (Hfail 0%nat ltac:(lia)) as [e0 [E0 C0]].
  destruct (Hfail 1%nat ltac:(lia)) as [e1 [E1 C1]].
  destruct (Hfail 2%nat ltac:(lia)) as [e2 [E2 C2]].
  rewrite Nat.add_0_r in E0.
  replace (w + 1)%nat with (S w) in E1 by lia.
  replace (w + 2)%nat with (S (S w)) in E2 by lia.
  exists (Some e2). unfold Remote.apiFetchWithRetry.
  rewrite retry_loop_step. cbn [Remote.apiFetch Remote.scripted].
  rewrite E0, C0.
  rewrite retry_loop_step. cbn [Remote.apiFetch Remote.scripted].
  rewrite E1, C1.
  rewrite retry_loop_step. cbn [Remote.apiFetch Remote.scripted].
  rewrite E2, C2. cbn [Remote.retry_loop].
  replace (w + 3)%nat with (S (S (S w))) by lia. reflexivity.
Qed.

(** X25: an outage sticks.  If the statistics of a team are not cached and
    the request of the lookup fails for good (the retries are used up, or
    the provider answers with a client error), the lookup answers [null]
    and caches it.  From then on a lookup for this team answers [null]
    without a request, whatever the provider would answer and whatever
    lookups for other keys complete in between; only a lookup for the same
    key that was under way before can replace the entry.  Against a
    scripted provider three failures in a row that are not client errors
    are such an outage, and cost three calls. *)
Theorem outage_sticks (World : Type) (provider : Remote.Provider World)
    (league season team : nat) (st : Remote.Store World)
    (last : option Remote.FetchError) (w : World)
    (cs : list Remote.Completion) (later : World) :
  Remote.teamStatsCache st (Remote.stats_key league season team) = None ->
  Remote.apiFetchWithRetry (Remote.stats_request league season team) 2
    (Remote.world st) = (Remote.Threw last, w) ->
  forallb (other_than_stats league season team) cs = true ->
  let '(v, st1) := Remote.getTeamStats league season team st in
  let st2 := at_world (Remote.complete_all cs st1) later in
  v = None /\
  Remote.teamStatsCache st1 (Remote.stats_key league season team) = Some None /\
  Remote.getTeamStats league season team st2 = (None, st2) /\
  (forall (script : Remote.Request -> nat -> Remote.fetched) (n : nat),
     (forall i, (i < 3)%nat ->
        exists e,
          script (Remote.stats_request league season team) (n + i)%nat
          = Remote.Failed e /\
          Remote.client_error e = false) ->
     exists last',
       @Remote.apiFetchWithRetry nat (Remote.scripted script)
          (Remote.stats_request league season team) 2 n
       = (Remote.Threw last', (n + 3)%nat)).
Proof.
  intros Hmiss Hretry Hother.
  rewrite getTeamStats_phases, Hmiss, Hretry.
  cbn [Remote.stats_result].
  set (st1 := at_world _ w).
  assert (Hnull : Remote.teamStatsCache st1
                    (Remote.stats_key league season team) = Some None).
  { unfold st1, at_world.
    cbn [Remote.complete Remote.teamStatsCache Remote.stats_result].
    apply cache_set_same. }
  cbv zeta.
  split; [reflexivity|]. split; [exact Hnull|]. split.
  - destruct (complete_all_stats World league season team cs st1 None Hnull)
      as [v' [H' Hsame]].
    rewrite (Hsame Hother) in H'.
    rewrite getTeamStats_phases. unfold at_world at 1.
    cbn [Remote.teamStatsCache]. rewrite H'. reflexivity.
  - intros script n Hfail. apply three_failures_throw, Hfail.
Qed.

Lemma outage_sticks_witness :
  fst (@Remote.getTeamStats nat unreachable 39 2024 1 (Remote.empty_store 0%nat))
  = None.
Proof.
  pose proof (outage_sticks nat unreachable 39 2024 1 (Remote.empty_store 0%nat)
                (Some (Remote.mkFetchError None "network"%string)) 3%nat
                [Remote.FormDone 39 2024 1 (Remote.Threw None)] 7%nat
                eq_refl eq_refl eq_refl) as H.
  destruct (@Remote.getTeamStats nat unreachable 39 2024 1
              (Remote.empty_store 0%nat)) as [v st1].
  destruct H as [Hv _]. exact Hv.
Defined.

(** X26: the cache keys tell the lookups apart: two triples of league,
    season and team have the same key only if they are the same triple,
    so a lookup for one triple never changes what is cached for another,
    in either cache. *)
Theorem cache_entries_isolated (World : Type) (provider : Remote.Provider World)
    (l s t l' s' t' : nat) (st : Remote.Store World) :
  (Remote.stats_key l s t = Remote.stats_key l' s' t' ->
   l = l' /\ s = s' /\ t = t') /\
  (Remote.form_key l s t = Remote.form_key l' s' t' ->
   l = l' /\ s = s' /\ t = t') /\
  ((l, s, t) <> (l', s', t') ->
   Remote.teamStatsCache (snd (Remote.getTeamStats l s t st))
     (Remote.stats_key l' s' t')
   = Remote.teamStatsCache st (Remote.stats_key l' s' t') /\
   Remote.teamFormCache (snd (Remote.getTeamRecentForm l s t st))
     (Remote.form_key l' s' t')
   = Remote.teamFormCache st (Remote.form_key l' s' t')).
Proof.
  split; [apply stats_key_inj|]. split; [apply form_key_inj|].
  intros Hne.
  assert (Hk : Remote.stats_key l' s' t' <> Remote.stats_key l s t).
  { intros E. apply stats_key_inj in E. destruct E as [E1 [E2 E3]].
    apply Hne. congruence. }
  assert (Hf : Remote.form_key l' s' t' <> Remote.form_key l s t).
  { intros E. apply form_key_inj in E. destruct E as [E1 [E2 E3]].
    apply Hne. congruence. }
  split.
  - unfold Remote.getTeamStats.
    destruct (Remote.teamStatsCache st (Remote.stats_key l s t)); [reflexivity|].
    destruct (Remote.apiFetchWithRetry _ 2 (Remote.world st)) as [[d|last] w];
      cbn [snd Remote.teamStatsCache]; apply cache_set_other; exact Hk.
  - unfold Remote.getTeamRecentForm.
    destruct (Remote.teamFormCache st (Remote.form_key l s t)); [reflexivity|].
    destruct (Remote.apiFetchWithRetry _ 2 (Remote.world st)) as [[d|last] w].
    + destruct (match d with
                | Remote.FixturesResponse fixtures => fixtures
                | _ => []
                end) as [|x resp];
        cbn [snd Remote.teamFormCache]; apply cache_set_other; exact Hf.
    + cbn [snd Remote.teamFormCache]. apply cache_set_other; exact Hf.
Qed.

Lemma cache_entries_isolated_witness :
  Remote.teamStatsCache
    (snd (@Remote.getTeamStats nat unreachable 39 2024 1 (Remote.empty_store 0%nat)))
    (Remote.stats_key 39 2024 12)
  = None.
Proof.
  destruct (cache_entries_isolated nat unreachable 39 2024 1 39 2024 12
              (Remote.empty_store 0%nat)) as [_ [_ H]].
  destruct H as [H _]; [discriminate|].
  rewrite H. reflexivity.
Defined.

(** ** Recent form *)

(** X27: the recent-form lookup never answers an empty list: starting from
    a form cache without one (the empty cache in particular), it answers
    [null] or a non-empty list with one sample per fixture the provider
    listed, and it leaves the cache without an empty list. *)
Theorem recent_form_never_empty (World : Type) (provider : Remote.Provider World)
    (league season team : nat) (st : Remote.Store World) :
  form_cache_wf st ->
  let '(v, st1) := Remote.getTeamRecentForm league season team st in
  v <> Some [] /\
  form_cache_wf st1 /\
  (Remote.teamFormCache st (Remote.form_key league season team) = None ->
   forall fixtures,
     fst (Remote.apiFetchWithRetry
            (Remote.form_request league season team) 2 (Remote.world st))
     = Remote.Returned (Remote.FixturesResponse fixtures) ->
     fixtures <> [] ->
     v = Some (map (Remote.toSample team) fixtures) /\
     matches (computeFormFactor v) = List.length fixtures).
Proof.
  intros Hwf. unfold Remote.getTeamRecentForm.
  destruct (Remote.teamFormCache st (Remote.form_key league season team))
    as [cached|] eqn:Hc.
  - split; [intros E; subst; apply (Hwf _ Hc)|].
    split; [exact Hwf|discriminate].
  - assert (Hset : forall (v : option (list FormSample)) (w : World),
              v <> Some [] ->
              form_cache_wf
                (Remote.mkStore (Remote.teamStatsCache st)
                   (Remote.cache_set (Remote.teamFormCache st)
                      (Remote.form_key league season team) v) w)).
    { intros v w Hv key. cbn [Remote.teamFormCache]. unfold Remote.cache_set.
      destruct (String.eqb key (Remote.form_key league season team)).
      - intros E. injection E as E. contradiction.
      - apply Hwf. }
    destruct (Remote.apiFetchWithRetry _ 2 (Remote.world st)) as [[d|last] w].
    + destruct d as [|stats|fixtures].
      * split; [discriminate|]. split; [apply Hset; discriminate|].
        intros _ fx E. discriminate E.
      * split; [discriminate|]. split; [apply Hset; discriminate|].
        intros _ fx E. discriminate E.
      * destruct fixtures as [|x resp].
        -- split; [discriminate|]. split; [apply Hset; discriminate|].
           intros _ fx E Hne. cbn [fst] in E. injection E as <-. congruence.
        -- split; [discriminate|]. split; [apply Hset; discriminate|].
           intros _ fx E Hne. cbn [fst] in E. injection E as <-.
           split; [reflexivity|].
           rewrite computeFormFactor_totals by discriminate.
           cbn [matches]. apply length_map.
    + split; [discriminate|]. split; [apply Hset; discriminate|].
      intros _ fx E. discriminate E.
Qed.

Lemma recent_form_never_empty_witness :
  fst (@Remote.getTeamRecentForm nat unreachable 39 2024 1
         (Remote.empty_store 0%nat))
  <> Some [].
Proof.
  pose proof (recent_form_never_empty nat unreachable 39 2024 1
                (Remote.empty_store 0%nat)) as H.
  assert (Hwf : form_cache_wf (@Remote.empty_store nat 0%nat)).
  { intros key. discriminate. }
  specialize (H Hwf).
  destruct (Remote.getTeamRecentForm 39 2024 1 (Remote.empty_store 0%nat))
    as [v st1].
  destruct H as [Hv _]. exact Hv.
Defined.

Lemma toSample_goals (team : nat) (f : Remote.RawFixture) :
  goalsFor (Remote.toSample team f) + goalsAgainst (Remote.toSample team f)
  = opt_or0 (Remote.goals_home f) + opt_or0 (Remote.goals_away f).
Proof.
  unfold Remote.toSample.
  destruct (match Remote.fixture_home_id f with
            | Some i => (i =? team)%nat
            | None => false
            end); cbn [goalsFor goalsAgainst]; ring.
Qed.

(** X28: the samples keep the goals of the fixtures.  In every sample the
    goals for and against are the goals of the two sides, the home goals
    being the goals for exactly when the team is the home side of the
    fixture; so over any list of fixtures the goals for and against add up
    to all the goals scored, absent goals counting 0. *)
Theorem samples_keep_goals (team : nat) (l : list Remote.RawFixture) :
  (forall f : Remote.RawFixture,
      (home (Remote.toSample team f) = true <->
       Remote.fixture_home_id f = Some team) /\
      (Remote.fixture_home_id f = Some team ->
       goalsFor (Remote.toSample team f) = opt_or0 (Remote.goals_home f) /\
       goalsAgainst (Remote.toSample team f) = opt_or0 (Remote.goals_away f)) /\
      (Remote.fixture_home_id f <> Some team ->
       goalsFor (Remote.toSample team f) = opt_or0 (Remote.goals_away f) /\
       goalsAgainst (Remote.toSample team f) = opt_or0 (Remote.goals_home f))) /\
  total_goalsFor (map (Remote.toSample team) l)
  + total_goalsAgainst (map (Remote.toSample team) l)
  = fixture_goals l.
Proof.
  split.
  - intros f. unfold Remote.toSample.
    destruct (Remote.fixture_home_id f) as [i|] eqn:Hid.
    + destruct (Nat.eqb_spec i team) as [->|Hne]; cbn [home goalsFor goalsAgainst].
      * split; [tauto|]. split; [tauto|]. intros H. congruence.
      * split; [split; [discriminate|intros E; congruence]|].
        split; [intros E; congruence|tauto].
    + cbn [home goalsFor goalsAgainst].
      split; [split; discriminate|]. split; [discriminate|tauto].
  - induction l as [|f l IH]; cbn [map total_goalsFor total_goalsAgainst
                                   fixture_goals fold_right].
    + lra.
    + pose proof (toSample_goals team f) as Hf.
      unfold total_goalsFor, total_goalsAgainst, fixture_goals in IH. lra.
Qed.

(** ** Dates and the fixture list *)







Lemma retry_scripted_outcome (script : Remote.Request -> nat -> Remote.fetched)
    (req : Remote.Request) (retries : nat) (w : nat) :
  let '(s, w') :=
    @Remote.apiFetchWithRetry nat (Remote.scripted script) req retries w in
  (w < w' <= w + retries + 1)%nat /\
  (forall r, s = Remote.Returned r ->
     exists i, (w <= i < w')%nat /\ script req i = Remote.Fetched r).
Proof.
  unfold Remote.apiFetchWithRetry.
  destruct (retry_loop_scripted script req retries None w)
    as [k [Hk [Hw [_ Hend]]]].
  destruct (Remote.retry_loop req (S retries) None w) as [s w'].
  cbn [fst snd] in *. subst w'. split; [lia|].
  intros r ->. exists (w + k)%nat. split; [lia|].
  destruct (script req (w + k)%nat) as [r'|e].
  - injection Hend as <-. reflexivity.
  - destruct Hend as [Hend _]. discriminate Hend.
Qed.

(** X30: listing the fixtures of a competition against a provider that
    answers from a script makes at least one and at most six calls (two
    requests of up to three attempts), never fails, and what it answers is
    either the empty list or a non-empty list of fixtures that one of
    these calls returned. *)
Theorem fixtures_listing_scripted
    (script : Remote.Request -> nat -> Remote.fetched)
    (clock : Remote.Clock nat) (comp : Competition) (w : nat) :
  let '(fx, w') :=
    @Remote.getFixturesForCompetition nat (Remote.scripted script) clock comp w in
  (w < w' <= w + 6)%nat /\
  (fx = [] \/
   exists req i, (w <= i < w')%nat /\
                 script req i = Remote.Fetched (Remote.FixturesResponse fx)).
Proof.
  unfold Remote.getFixturesForCompetition.
  pose proof (retry_scripted_outcome script
                (Remote.next_request (apiLeagueId comp) (season comp)) 2 w) as H1.
  destruct (@Remote.apiFetchWithRetry nat (Remote.scripted script)
              (Remote.next_request (apiLeagueId comp) (season comp)) 2 w)
    as [s1 w1].
  destruct H1 as [Hw1 Hr1].
  set (req2 := Remote.range_request (apiLeagueId comp) (season comp)
                 (Remote.formatDate (Remote.now w1))
                 (Remote.formatDate (Remote.plus_days (Remote.now w1) 30))).
  pose proof (retry_scripted_outcome script req2 2 w1) as H2.
  assert (Hsecond :
    let '(fx, w') :=
      match @Remote.apiFetchWithRetry nat (Remote.scripted script) req2 2 w1 with
      | (Remote.Returned (Remote.FixturesResponse (x :: l)), w2) => (x :: l, w2)
      | (_, w2) => ([], w2)
      end in
    (w < w' <= w + 6)%nat /\
    (fx = [] \/
     exists req i, (w <= i < w')%nat /\
                   script req i = Remote.Fetched (Remote.FixturesResponse fx))).
  { destruct (@Remote.apiFetchWithRetry nat (Remote.scripted script) req2 2 w1)
      as [s2 w2].
    destruct H2 as [Hw2 Hr2].
    destruct s2 as [[|stats|[|x l]]|last];
      try (split; [lia|left; reflexivity]).
    split; [lia|right].
    destruct (Hr2 _ eq_refl) as [i [Hi Ei]].
    exists req2, i. split; [lia|exact Ei]. }
  destruct s1 as [[|stats|[|x l]]|last]; try exact Hsecond.
  split; [lia|right].
  destruct (Hr1 _ eq_refl) as [i [Hi Ei]].
  exists (Remote.next_request (apiLeagueId comp) (season comp)), i.
  split; [lia|exact Ei].
Qed.
